(** * create_icons.py: hand-assembled solid-colour PNG icons

    A shallow embedding of [src/motuwe-extension/images/create_icons.py]
    and the properties of the PNG byte stream it assembles.

    Conventions of the embedding:
    - a Python [int] is a [Z]; a Python [bytes] value is a [list byte];
    - [struct.pack] raises [struct.error] on a value outside the range of
      its format code, which is an [Err StructError] result here;
    - [zlib.crc32] is the CRC-32 of the zlib library, written out bit by bit;
    - [zlib.compress] is library code that is not reproduced: everything
      that depends on it is stated for an arbitrary compressor, and the
      zlib inverse, where a statement needs it, is a hypothesis;
    - file output and [print] act on an explicit [world]. *)

From Stdlib Require Import ZArith List Lia.
From Stdlib Require Import Strings.Byte.
From stdpp Require Import base gmap strings list.
Import ListNotations.
Open Scope Z_scope.

(** ** Bytes *)

Abbreviation bytes := (list byte).

#[global] Instance byte_eqdec : EqDecision byte := Byte.byte_eq_dec.

Definition Z_of_byte (b : byte) : Z := Z.of_N (Byte.to_N b).

(** The byte whose value is [z mod 256]. *)
Definition byte_of_Z (z : Z) : byte :=
  match Byte.of_N (Z.to_N (z mod 256)) with
  | Some b => b
  | None => x00
  end.

(** Python's [len]. *)
Definition len {A} (l : list A) : Z := Z.of_nat (length l).

(** Python's [range(n)]: empty when [n <= 0]. *)
Definition range (n : Z) : list Z := map Z.of_nat (seq 0 (Z.to_nat n)).

(** ** Exceptions and results *)

Inductive exn : Type :=
  | StructError   (* struct.error *)
  | OSError.      (* open() failed *)

Inductive result (A : Type) : Type :=
  | Ok  : A -> result A
  | Err : exn -> result A.
Arguments Ok {A} _.
Arguments Err {A} _.

Definition rbind {A B} (r : result A) (k : A -> result B) : result B :=
  match r with
  | Ok a => k a
  | Err e => Err e
  end.

Declare Scope result_scope.
Delimit Scope result_scope with result.
Notation "x <- r ;; k" := (rbind r (fun x => k))
  (at level 100, r at next level, right associativity) : result_scope.

(** ** struct.pack *)

(** Four bytes, most significant first. *)
Definition be32 (v : Z) : bytes :=
  [ byte_of_Z (Z.shiftr v 24); byte_of_Z (Z.shiftr v 16);
    byte_of_Z (Z.shiftr v 8); byte_of_Z v ].

(** The reading direction: [struct.unpack('>I', bs)] on exactly four bytes. *)
Definition unpack_I (bs : bytes) : option Z :=
  match bs with
  | [b3; b2; b1; b0] =>
      Some (((Z_of_byte b3 * 256 + Z_of_byte b2) * 256 + Z_of_byte b1) * 256
            + Z_of_byte b0)
  | _ => None
  end.

(** One ['I'] field: a 4-byte unsigned integer, [0 <= v <= 4294967295]. *)
Definition pack_field_I (v : Z) : result bytes :=
  if (0 <=? v) && (v <=? 4294967295) then Ok (be32 v) else Err StructError.

(** One ['B'] field: an unsigned byte, [0 <= v <= 255]. *)
Definition pack_field_B (v : Z) : result bytes :=
  if (0 <=? v) && (v <=? 255) then Ok [byte_of_Z v] else Err StructError.

(** [struct.pack('>I', v)] *)
Definition struct_pack_I (v : Z) : result bytes := pack_field_I v.

(** [struct.pack('>IIBBBBB', a, b, c, d, e, f, g)]: big-endian, no padding,
    the fields packed left to right. *)
Definition struct_pack_IIBBBBB (a b c d e f g : Z) : result bytes :=
  (pa <- pack_field_I a ;;
   pb <- pack_field_I b ;;
   pc <- pack_field_B c ;;
   pd <- pack_field_B d ;;
   pe <- pack_field_B e ;;
   pf <- pack_field_B f ;;
   pg <- pack_field_B g ;;
   Ok (pa ++ pb ++ pc ++ pd ++ pe ++ pf ++ pg))%result.

(** ** zlib.crc32 *)

(** One step of the reflected CRC-32 shift register (polynomial
    0xEDB88320). *)
Definition crc32_bit (c : Z) : Z :=
  if Z.testbit c 0
  then Z.lxor (Z.shiftr c 1) 0xEDB88320
  else Z.shiftr c 1.

Definition crc32_byte (c : Z) (b : byte) : Z :=
  Nat.iter 8 crc32_bit (Z.lxor c (Z_of_byte b)).

(** [zlib.crc32(data)]: initial value and final xor 0xFFFFFFFF; the result
    is an unsigned 32-bit integer. *)
Definition crc32 (data : bytes) : Z :=
  Z.lxor (fold_left crc32_byte data 0xFFFFFFFF) 0xFFFFFFFF.

(** ** The byte-string literals of the script *)

(** [b'\x89PNG\r\n\x1a\n'] *)
Definition header : bytes := [x89; x50; x4e; x47; x0d; x0a; x1a; x0a].
(** [b'IHDR'] *)
Definition IHDR : bytes := [x49; x48; x44; x52].
(** [b'IDAT'] *)
Definition IDAT : bytes := [x49; x44; x41; x54].
(** [b'IEND'] *)
Definition IEND : bytes := [x49; x45; x4e; x44].
(** [b'\x4c\xaf\x50'] *)
Definition green : bytes := [x4c; xaf; x50].

(** The module-level constant [green_pixel] (never read by the script). *)
Definition green_pixel : bytes :=
  header
  ++ [x00; x00; x00; x0d] ++ IHDR
  ++ [x00; x00; x00; x01; x00; x00; x00; x01; x08; x02; x00; x00; x00]
  ++ [x90; x77; x53; xde]
  ++ [x00; x00; x00; x0c] ++ IDAT
  ++ [x78; x9c; x63; xf8; x4f; xea; x30; x00; x00; x02; xa1; x01]
  ++ [x45; xb5; x18; xc9]
  ++ [x00; x00; x00; x00] ++ IEND ++ [xae; x42; x60; x82].

(** ** The world: files that exist, paths that cannot be opened for
    writing, and the lines printed so far

    A file is named by its path string: two strings that name one file
    (a relative and a dotted form, links) are outside this model, and no
    statement below compares the files of two different paths. *)

Record world : Type := World {
  files : gmap string bytes;
  unwritable : gset string;
  stdout : list string
}.

(** A command either completes with a value or raises; either way it
    leaves a world behind. *)
Definition M (A : Type) : Type := world -> result A * world.

Definition ret {A} (a : A) : M A := fun w => (Ok a, w).

Definition raise {A} (e : exn) : M A := fun w => (Err e, w).

Definition bind {A B} (m : M A) (k : A -> M B) : M B :=
  fun w =>
    match m w with
    | (Ok a, w') => k a w'
    | (Err e, w') => (Err e, w')
    end.

(** A computation without effects, run as a command. *)
Definition lift {A} (r : result A) : M A :=
  match r with
  | Ok a => ret a
  | Err e => raise e
  end.

Declare Scope cmd_scope.
Delimit Scope cmd_scope with cmd.
Notation "x <- m ;; k" := (bind m (fun x => k))
  (at level 100, m at next level, right associativity) : cmd_scope.
Notation "m ;; k" := (bind m (fun _ => k))
  (at level 100, right associativity) : cmd_scope.

(** [with open(filename, 'wb') as f: f.write(data)]: opening fails with
    [OSError] and touches nothing; otherwise the file is created or
    truncated and holds exactly [data] afterwards.  A path is either
    unwritable or not: a write that fails half way, after the file has
    been opened, is outside this model. *)
Definition write_file (filename : string) (data : bytes) : M unit :=
  fun w =>
    if decide (filename ∈ unwritable w)
    then (Err OSError, w)
    else (Ok tt, World (<[filename := data]> (files w)) (unwritable w) (stdout w)).

(** [print(line)] *)
Definition print (line : string) : M unit :=
  fun w => (Ok tt, World (files w) (unwritable w) (stdout w ++ [line])).

(** ** create_icon *)

Section CreateIcon.

(** [zlib.compress], called with its default level. *)
Variable compress : bytes -> bytes.

(** [create_icon(size, filename)], statement by statement.  The byte
    literals are the constants above; each [struct.pack] may raise, and
    what follows it is then not run. *)
Definition create_icon (size : Z) (filename : string) : M unit :=
  (let width := size in
   let height := size in
   let bit_depth := 8 in
   let color_type := 2 in
   let compression := 0 in
   let filter_method := 0 in
   let interlace := 0 in
   ihdr_data <- lift (struct_pack_IIBBBBB width height bit_depth color_type
                        compression filter_method interlace) ;;
   let ihdr_crc := crc32 (IHDR ++ ihdr_data) in
   ihdr_len_field <- lift (struct_pack_I 13) ;;
   ihdr_crc_field <- lift (struct_pack_I ihdr_crc) ;;
   let ihdr_chunk := ihdr_len_field ++ IHDR ++ ihdr_data ++ ihdr_crc_field in
   let scanlines :=
     fold_left (fun scanlines (y : Z) =>
                  let scanline :=
                    fold_left (fun scanline (x : Z) => scanline ++ green)
                              (range width) [x00] in
                  scanlines ++ [scanline])
               (range height) [] in
   let raw_data := concat scanlines in
   let compressed := compress raw_data in
   let idat_crc := crc32 (IDAT ++ compressed) in
   idat_len_field <- lift (struct_pack_I (len compressed)) ;;
   idat_crc_field <- lift (struct_pack_I idat_crc) ;;
   let idat_chunk := idat_len_field ++ IDAT ++ compressed ++ idat_crc_field in
   let iend_crc := crc32 IEND in
   iend_len_field <- lift (struct_pack_I 0) ;;
   iend_crc_field <- lift (struct_pack_I iend_crc) ;;
   let iend_chunk := iend_len_field ++ IEND ++ iend_crc_field in
   let png_data := header ++ ihdr_chunk ++ idat_chunk ++ iend_chunk in
   write_file filename png_data ;;
   print ("Created " +:+ filename))%cmd.

(** The module body: the four calls, in order. *)
Definition main : M unit :=
  (create_icon 16 "icon16.png" ;;
   create_icon 32 "icon32.png" ;;
   create_icon 48 "icon48.png" ;;
   create_icon 128 "icon128.png")%cmd.

(** ** The locals of create_icon, as functions of the size

    The same statements once more, one definition per local variable, so
    that properties of a single local can be stated; [create_icon_unfold]
    below proves that [create_icon] computes and writes exactly
    [png_data]. *)

(** The inner loop: one scanline of [width] pixels.
<<
    scanline = b'\x00'
    for x in range(width):
        scanline += b'\x4c\xaf\x50'
>> *)
Definition scanline (width : Z) : bytes :=
  fold_left (fun scanline _ => scanline ++ green) (range width) [x00].

(** The outer loop: [height] scanlines, appended one by one. *)
Definition scanlines (width height : Z) : list bytes :=
  fold_left (fun scanlines _ => scanlines ++ [scanline width]) (range height) [].

(** [raw_data = b''.join(scanlines)] *)
Definition raw_data (size : Z) : bytes :=
  let width := size in
  let height := size in
  concat (scanlines width height).

(** [ihdr_data] *)
Definition ihdr_data (size : Z) : result bytes :=
  let width := size in
  let height := size in
  let bit_depth := 8 in
  let color_type := 2 in
  let compression := 0 in
  let filter_method := 0 in
  let interlace := 0 in
  struct_pack_IIBBBBB width height bit_depth color_type compression
                      filter_method interlace.

(** [ihdr_chunk] *)
Definition ihdr_chunk (size : Z) : result bytes :=
  (ihdr_data <- ihdr_data size ;;
   let ihdr_crc := crc32 (IHDR ++ ihdr_data) in
   p_len <- struct_pack_I 13 ;;
   p_crc <- struct_pack_I ihdr_crc ;;
   Ok (p_len ++ IHDR ++ ihdr_data ++ p_crc))%result.

(** [compressed] *)
Definition compressed (size : Z) : bytes := compress (raw_data size).

(** [idat_chunk] *)
Definition idat_chunk (size : Z) : result bytes :=
  (let compressed := compressed size in
   let idat_crc := crc32 (IDAT ++ compressed) in
   p_len <- struct_pack_I (len compressed) ;;
   p_crc <- struct_pack_I idat_crc ;;
   Ok (p_len ++ IDAT ++ compressed ++ p_crc))%result.

(** [iend_chunk] *)
Definition iend_chunk : result bytes :=
  (let iend_crc := crc32 IEND in
   p_len <- struct_pack_I 0 ;;
   p_crc <- struct_pack_I iend_crc ;;
   Ok (p_len ++ IEND ++ p_crc))%result.

(** [png_data]: the whole stream, assembled in memory in the order of
    the script (header chunk, data chunk, trailer chunk). *)
Definition png_data (size : Z) : result bytes :=
  (ihdr_chunk <- ihdr_chunk size ;;
   idat_chunk <- idat_chunk size ;;
   iend_chunk <- iend_chunk ;;
   Ok (header ++ ihdr_chunk ++ idat_chunk ++ iend_chunk))%result.

End CreateIcon.

(** ** Reading a PNG stream back

    The inverse direction, as a conforming reader does it: check the
    signature, then split the rest into chunks by their length fields. *)

Record chunk : Type := Chunk {
  chunk_length : Z;        (* the length field, as stored *)
  chunk_type : bytes;      (* the four type bytes *)
  chunk_payload : bytes;   (* the [chunk_length] bytes that follow *)
  chunk_crc : Z            (* the CRC field, as stored *)
}.

Fixpoint read_chunks (fuel : nat) (s : bytes) : option (list chunk) :=
  match s, fuel with
  | [], _ => Some []
  | _, O => None
  | _, S fuel' =>
      match unpack_I (firstn 4 s) with
      | None => None
      | Some n =>
          let body := skipn 8 s in
          if n + 4 <=? len body then
            match unpack_I (firstn 4 (skipn (Z.to_nat n) body)) with
            | None => None
            | Some c =>
                match read_chunks fuel' (skipn (Z.to_nat n + 4) body) with
                | None => None
                | Some cs =>
                    Some (Chunk n (firstn 4 (skipn 4 s))
                                (firstn (Z.to_nat n) body) c :: cs)
                end
            end
          else None
      end
  end.

Definition read_png (s : bytes) : option (list chunk) :=
  if decide (firstn 8 s = header)
  then read_chunks (length s) (skipn 8 s)
  else None.

(** What the format asks of every chunk. *)
Definition chunk_ok (c : chunk) : Prop :=
  chunk_length c = len (chunk_payload c)
  /\ chunk_crc c = crc32 (chunk_type c ++ chunk_payload c).

(** The wire form of a chunk with a given type and payload. *)
Definition serialized (type payload : bytes) : bytes :=
  be32 (len payload) ++ type ++ payload ++ be32 (crc32 (type ++ payload)).

(** The stream the script is after, chunk by chunk: the signature, then
    the header chunk with payload [ihdr], the data chunk and the trailer. *)
Definition png_layout (compress : bytes -> bytes) (size : Z) (ihdr : bytes)
  : bytes :=
  header ++ serialized IHDR ihdr
         ++ serialized IDAT (compressed compress size)
         ++ serialized IEND [].

(** The sizes at which nothing raises while the stream is assembled: the
    size fits the two ['I'] fields of the header, and the length of the
    compressed buffer fits the ['I'] length field of the data chunk. *)
Definition fits (compress : bytes -> bytes) (size : Z) : Prop :=
  0 <= size <= 4294967295
  /\ len (compressed compress size) <= 4294967295.

(** The line a call prints once its file is written. *)
Definition created_line (filename : string) : string :=
  "Created " +:+ filename.

(** ** The expected image *)

(** One row of a uniform green image of width [n]: the filter byte 0 and
    [n] pixels (76, 175, 80). *)
Definition green_row (n : nat) : bytes :=
  x00 :: concat (repeat [byte_of_Z 76; byte_of_Z 175; byte_of_Z 80] n).

Definition green_rows (n : nat) : list bytes := repeat (green_row n) n.

(** ** Reading the pixels of a decompressed buffer *)

Definition pixel : Type := Z * Z * Z.

(** [n] RGB triples from the front of [s], and what follows them. *)
Fixpoint read_pixels (n : nat) (s : bytes) : option (list pixel * bytes) :=
  match n with
  | O => Some ([], s)
  | S n' =>
      match s with
      | r :: g :: b :: s' =>
          match read_pixels n' s' with
          | Some (ps, rest) =>
              Some ((Z_of_byte r, Z_of_byte g, Z_of_byte b) :: ps, rest)
          | None => None
          end
      | _ => None
      end
  end.

(** [height] rows of [width] pixels, each row behind a filter byte 0, and
    nothing after the last row. *)
Fixpoint read_rows (height width : nat) (s : bytes)
  : option (list (list pixel)) :=
  match height with
  | O => match s with [] => Some [] | _ => None end
  | S height' =>
      match s with
      | f :: s' =>
          if decide (f = x00) then
            match read_pixels width s' with
            | Some (row, rest) =>
                match read_rows height' width rest with
                | Some rows => Some (row :: rows)
                | None => None
                end
            | None => None
            end
          else None
      | [] => None
      end
  end.

(** The [n] by [n] image whose every pixel is (76, 175, 80). *)
Definition uniform_green (n : nat) : list (list pixel) :=
  repeat (repeat (76, 175, 80) n) n.

(** ** Decoding a whole PNG

    A reader for the images this format subset can hold: 8-bit truecolour,
    not interlaced, every row with filter type 0.  It checks the signature
    and every CRC, takes width and height from the leading IHDR chunk,
    joins the payloads of the IDAT chunks, hands them to the zlib inverse
    [decompress] and reads the rows.  As the format requires, a width or
    height of 0, or above 2147483647, is refused. *)

Definition crc_valid (c : chunk) : bool :=
  chunk_crc c =? crc32 (chunk_type c ++ chunk_payload c).

Definition idat_payload (chunks : list chunk) : bytes :=
  concat (map chunk_payload
              (filter (fun c => chunk_type c = IDAT) chunks)).

Definition decode_png (decompress : bytes -> option bytes) (s : bytes)
  : option (Z * Z * list (list pixel)) :=
  match read_png s with
  | Some (first :: rest) =>
      if bool_decide (chunk_type first = IHDR)
         && forallb crc_valid (first :: rest)
         && bool_decide (chunk_type <$> last rest = Some IEND)
         && bool_decide (length (chunk_payload first) = 13%nat)
         && bool_decide (skipn 8 (chunk_payload first)
                         = [x08; x02; x00; x00; x00])
      then
        match unpack_I (firstn 4 (chunk_payload first)),
              unpack_I (firstn 4 (skipn 4 (chunk_payload first))),
              decompress (idat_payload rest) with
        | Some width, Some height, Some raw =>
            if (0 <? width) && (width <=? 2147483647)
               && (0 <? height) && (height <=? 2147483647)
            then
              match read_rows (Z.to_nat height) (Z.to_nat width) raw with
              | Some rows => Some (width, height, rows)
              | None => None
              end
            else None
        | _, _, _ => None
        end
      else None
  | _ => None
  end.

(** ** Statements about one call, as predicates of the size *)

(** The header payload: 13 bytes, width and height as big-endian 32-bit
    fields, then 8, 2, 0, 0, 0; and the chunk's length field reads 13. *)
Definition ihdr_contents (size : Z) : Prop :=
  exists ihdr chunk,
    ihdr_data size = Ok ihdr
    /\ ihdr = be32 size ++ be32 size ++ [x08; x02; x00; x00; x00]
    /\ length ihdr = 13%nat
    /\ unpack_I (firstn 4 ihdr) = Some size
    /\ unpack_I (firstn 4 (skipn 4 ihdr)) = Some size
    /\ map Z_of_byte (skipn 8 ihdr) = [8; 2; 0; 0; 0]
    /\ ihdr_chunk size = Ok chunk
    /\ unpack_I (firstn 4 chunk) = Some 13.

(** The stream holds the three chunks, each with a length field equal to
    the length of its payload and a CRC field equal to the CRC-32 of its
    type and payload. *)
Definition chunk_invariant (compress : bytes -> bytes) (size : Z) : Prop :=
  exists png ihdr chunks,
    png_data compress size = Ok png
    /\ ihdr_data size = Ok ihdr
    /\ read_png png = Some chunks
    /\ map chunk_type chunks = [IHDR; IDAT; IEND]
    /\ map chunk_payload chunks = [ihdr; compressed compress size; []]
    /\ map chunk_length chunks = [13; len (compressed compress size); 0]
    /\ Forall chunk_ok chunks.

(** The call writes the signature followed by the three serialized
    chunks, and nothing else, to [filename]. *)
Definition writes_layout (compress : bytes -> bytes) (size : Z)
    (filename : string) (w : world) : Prop :=
  exists ihdr w',
    ihdr_data size = Ok ihdr
    /\ create_icon compress size filename w = (Ok tt, w')
    /\ files w' !! filename
       = Some ([x89; x50; x4e; x47; x0d; x0a; x1a; x0a]
               ++ serialized IHDR ihdr
               ++ serialized IDAT (compressed compress size)
               ++ serialized IEND [])
    /\ firstn 8 <$> files w' !! filename
       = Some [x89; x50; x4e; x47; x0d; x0a; x1a; x0a].

(** The stream ends with the trailer: length 0, type IEND, no payload,
    and the CRC-32 of the four type bytes. *)
Definition iend_trailer (compress : bytes -> bytes) (size : Z) : Prop :=
  exists png before chunks,
    png_data compress size = Ok png
    /\ png = before ++ be32 0 ++ IEND ++ be32 (crc32 IEND)
    /\ read_png png = Some chunks
    /\ last chunks = Some (Chunk 0 IEND [] (crc32 IEND)).

(** The call hands the compressor exactly the buffer of [size] rows,
    each row a filter byte 0x00 and [size] triples 0x4C 0xAF 0x50, of
    [size * (1 + 3 * size)] bytes: whatever the compressor, the path and
    the world, what the call does is fixed by what the compressor
    returns for this buffer. *)
Definition builds_rows (size : Z) : Prop :=
  let n := Z.to_nat size in
  let buffer :=
    concat (repeat (x00 :: concat (repeat [x4c; xaf; x50] n)) n) in
  len buffer = size * (1 + 3 * size)
  /\ forall (compress : bytes -> bytes) (filename : string) (w : world),
       create_icon compress size filename w
       = if 4294967295 <? len (compress buffer) then (Err StructError, w)
         else if decide (filename ∈ unwritable w) then (Err OSError, w)
         else (Ok tt,
               World (<[filename :=
                          header
                          ++ serialized IHDR
                               (be32 size ++ be32 size
                                ++ [x08; x02; x00; x00; x00])
                          ++ serialized IDAT (compress buffer)
                          ++ serialized IEND []]> (files w))
                     (unwritable w)
                     (stdout w ++ ["Created " +:+ filename])).

(** The call returns, and the file it has written carries, as the payload
    of its IDAT chunk, the compressed raw buffer; the zlib inverse gives
    back [size] rows of a filter byte 0 and [size] triples (76, 175, 80),
    which read as the uniform green image; and, for a size the format
    allows (at most 2147483647), the whole file decodes to width [size],
    height [size] and that image. *)
Definition round_trips (compress : bytes -> bytes)
    (decompress : bytes -> option bytes) (size : Z) (filename : string)
    (w : world) : Prop :=
  let n := Z.to_nat size in
  exists w' png chunks,
    create_icon compress size filename w = (Ok tt, w')
    /\ files w' !! filename = Some png
    /\ read_png png = Some chunks
    /\ idat_payload chunks = compress (concat (green_rows n))
    /\ decompress (idat_payload chunks) = Some (concat (green_rows n))
    /\ length (green_rows n) = n
    /\ read_rows n n (concat (green_rows n)) = Some (uniform_green n)
    /\ (size <= 2147483647 ->
        decode_png decompress png = Some (size, size, uniform_green n)).

(** ** The driver, as a list of calls *)

Definition icons : list (Z * string) :=
  [ (16, "icon16.png"); (32, "icon32.png");
    (48, "icon48.png"); (128, "icon128.png") ]%string.

(** Calls made one after the other; the first one that raises ends the
    run, and the calls after it are not made. *)
Fixpoint run_calls (compress : bytes -> bytes) (calls : list (Z * string))
    (w : world) : result unit * world :=
  match calls with
  | [] => (Ok tt, w)
  | (size, filename) :: calls' =>
      match create_icon compress size filename w with
      | (Ok _, w') => run_calls compress calls' w'
      | (Err e, w') => (Err e, w')
      end
  end.

(** ** A zlib codec that stores

    A compressor that a conforming zlib accepts as input to its inverse:
    the two-byte zlib header, the data in stored (uncompressed) deflate
    blocks of at most 65535 bytes, and the Adler-32 of the data.  It is
    the instance at which the statements about an arbitrary compressor
    are evaluated. *)

Definition adler32_step (s : Z * Z) (b : byte) : Z * Z :=
  let a := (fst s + Z_of_byte b) mod 65521 in
  (a, (snd s + a) mod 65521).

Definition adler32 (data : bytes) : Z :=
  let s := fold_left adler32_step data (1, 0) in
  snd s * 65536 + fst s.

(** Two bytes, least significant first. *)
Definition le16 (v : Z) : bytes := [byte_of_Z v; byte_of_Z (Z.shiftr v 8)].

Definition stored_block (final : bool) (d : bytes) : bytes :=
  [if final then x01 else x00]
  ++ le16 (len d) ++ le16 (Z.lxor (len d) 0xFFFF) ++ d.

(** The largest stored block: 65535 bytes. *)
Definition block_max : nat := Z.to_nat 0xFFFF.

Fixpoint stored_blocks (fuel : nat) (d : bytes) : bytes :=
  match fuel with
  | O => stored_block true d
  | S fuel' =>
      if len d <=? 0xFFFF
      then stored_block true d
      else stored_block false (firstn block_max d)
           ++ stored_blocks fuel' (skipn block_max d)
  end.

Definition zlib_store (d : bytes) : bytes :=
  [x78; x01] ++ stored_blocks (length d) d ++ be32 (adler32 d).

(** Reads stored blocks up to and including the final one; returns the
    data and the bytes after the last block. *)
Fixpoint inflate_stored (fuel : nat) (s : bytes) : option (bytes * bytes) :=
  match fuel, s with
  | S fuel', h :: l0 :: l1 :: n0 :: n1 :: rest =>
      let n := Z_of_byte l0 + 256 * Z_of_byte l1 in
      let nn := Z_of_byte n0 + 256 * Z_of_byte n1 in
      if (nn =? Z.lxor n 0xFFFF) && (n <=? len rest) then
        let d := firstn (Z.to_nat n) rest in
        let rest' := skipn (Z.to_nat n) rest in
        if decide (h = x01) then Some (d, rest')
        else if decide (h = x00) then
          match inflate_stored fuel' rest' with
          | Some (d', r) => Some (d ++ d', r)
          | None => None
          end
        else None
      else None
  | _, _ => None
  end.

Definition zlib_unstore (s : bytes) : option bytes :=
  match s with
  | cmf :: flg :: body =>
      if bool_decide (cmf = x78)
         && ((Z_of_byte cmf * 256 + Z_of_byte flg) mod 31 =? 0)
         && negb (Z.testbit (Z_of_byte flg) 5)
      then
        match inflate_stored (length body) body with
        | Some (d, trailer) =>
            if decide (unpack_I trailer = Some (adler32 d)) then Some d else None
        | None => None
        end
      else None
  | _ => None
  end.

(** ** Worlds used in examples *)

(** Nothing on disk, every path writable, nothing printed. *)
Definition empty_world : world := World ∅ ∅ [].

(** As [empty_world], except that [icon32.png] cannot be opened. *)
Definition locked_world : world := World ∅ {[ "icon32.png"%string ]} [].

(** * Bytes and fixed-width integers *)

Lemma Z_of_byte_range (b : byte) : 0 <= Z_of_byte b < 256.
Proof.
  unfold Z_of_byte. pose proof (Byte.to_N_bounded b). lia.
Qed.

Lemma Z_of_byte_of_Z (z : Z) : Z_of_byte (byte_of_Z z) = z mod 256.
Proof.
  unfold Z_of_byte, byte_of_Z.
  assert (Hr : 0 <= z mod 256 < 256) by (apply Z.mod_pos_bound; lia).
  destruct (Byte.of_N (Z.to_N (z mod 256))) as [b|] eqn:E.
  - apply Byte.to_of_N in E. rewrite E. lia.
  - apply Byte.of_N_None_iff in E. lia.
Qed.

Lemma byte_of_Z_of_byte (b : byte) : byte_of_Z (Z_of_byte b) = b.
Proof.
  unfold byte_of_Z, Z_of_byte.
  pose proof (Byte.to_N_bounded b) as Hb.
  rewrite Z.mod_small by lia.
  rewrite N2Z.id, Byte.of_to_N. reflexivity.
Qed.

Lemma be32_length (v : Z) : length (be32 v) = 4%nat.
Proof. reflexivity. Qed.

Lemma unpack_I_be32 (v : Z) :
  0 <= v <= 4294967295 -> unpack_I (be32 v) = Some v.
Proof.
  intros Hv. unfold unpack_I, be32.
  rewrite !Z_of_byte_of_Z, !Z.shiftr_div_pow2 by lia.
  f_equal.
  change (2 ^ 24) with 16777216. change (2 ^ 16) with 65536.
  change (2 ^ 8) with 256.
  Z.to_euclidean_division_equations. lia.
Qed.

Lemma len_nonneg {A} (l : list A) : 0 <= len l.
Proof. unfold len. lia. Qed.

Lemma len_app {A} (l1 l2 : list A) : len (l1 ++ l2) = len l1 + len l2.
Proof. unfold len. rewrite length_app. lia. Qed.

Lemma range_length (n : Z) : length (range n) = Z.to_nat n.
Proof. unfold range. rewrite length_map, length_seq. reflexivity. Qed.

Lemma rbind_Ok {A B} (a : A) (k : A -> result B) : rbind (Ok a) k = k a.
Proof. reflexivity. Qed.

Lemma rbind_Err {A B} (e : exn) (k : A -> result B) : rbind (Err e) k = Err e.
Proof. reflexivity. Qed.

(** * struct.pack: when it succeeds and what it yields *)

Lemma pack_field_I_ok (v : Z) :
  0 <= v <= 4294967295 -> pack_field_I v = Ok (be32 v).
Proof.
  intros Hv. unfold pack_field_I.
  destruct (Z.leb_spec 0 v), (Z.leb_spec v 4294967295); simpl; auto; lia.
Qed.

Lemma pack_field_I_err (v : Z) :
  v < 0 \/ 4294967295 < v -> pack_field_I v = Err StructError.
Proof.
  intros Hv. unfold pack_field_I.
  destruct (Z.leb_spec 0 v), (Z.leb_spec v 4294967295); simpl; auto; lia.
Qed.

Lemma pack_field_I_inv (v : Z) (bs : bytes) :
  pack_field_I v = Ok bs -> 0 <= v <= 4294967295 /\ bs = be32 v.
Proof.
  unfold pack_field_I.
  destruct (Z.leb_spec 0 v), (Z.leb_spec v 4294967295); simpl;
    intros E; inversion E; subst; split; auto; lia.
Qed.

(** * CRC-32 stays within 32 bits *)

Lemma lxor_bound (n a b : Z) :
  0 <= a < 2 ^ n -> 0 <= b < 2 ^ n -> 0 <= Z.lxor a b < 2 ^ n.
Proof.
  intros Ha Hb.
  assert (Hnn : 0 <= Z.lxor a b) by (apply Z.lxor_nonneg; lia).
  split; [exact Hnn|].
  destruct (Z.eq_dec (Z.lxor a b) 0) as [E|NE]; [lia|].
  assert (Hn : 0 < n).
  { destruct (Z.lt_trichotomy n 0) as [Hlt|[Heq|Hgt]]; [| |exact Hgt].
    - rewrite Z.pow_neg_r in Ha by lia. lia.
    - subst n. change (2 ^ 0) with 1 in *.
      assert (a = 0) by lia. assert (b = 0) by lia. subst. now elim NE. }
  apply Z.log2_lt_pow2; [lia|].
  pose proof (Z.log2_lxor a b ltac:(lia) ltac:(lia)) as Hl.
  assert (Z.log2 a < n).
  { destruct (Z.eq_dec a 0) as [->|]; [now rewrite Z.log2_nonpos by lia|].
    apply Z.log2_lt_pow2; lia. }
  assert (Z.log2 b < n).
  { destruct (Z.eq_dec b 0) as [->|]; [now rewrite Z.log2_nonpos by lia|].
    apply Z.log2_lt_pow2; lia. }
  lia.
Qed.

Lemma crc32_bit_bound (c : Z) :
  0 <= c < 2 ^ 32 -> 0 <= crc32_bit c < 2 ^ 32.
Proof.
  intros Hc. unfold crc32_bit.
  assert (Hs : 0 <= Z.shiftr c 1 < 2 ^ 32).
  { rewrite Z.shiftr_div_pow2 by lia. change (2 ^ 1) with 2.
    split; [apply Z.div_pos; lia|].
    apply Z.div_lt_upper_bound; lia. }
  destruct (Z.testbit c 0); [|exact Hs].
  apply lxor_bound; [exact Hs|]. lia.
Qed.

Lemma crc32_byte_bound (c : Z) (b : byte) :
  0 <= c < 2 ^ 32 -> 0 <= crc32_byte c b < 2 ^ 32.
Proof.
  intros Hc. unfold crc32_byte.
  assert (H0 : 0 <= Z.lxor c (Z_of_byte b) < 2 ^ 32).
  { apply lxor_bound; [exact Hc|]. pose proof (Z_of_byte_range b). lia. }
  generalize dependent (Z.lxor c (Z_of_byte b)). intros x Hx.
  simpl. do 8 apply crc32_bit_bound. exact Hx.
Qed.

Lemma crc32_bound (data : bytes) : 0 <= crc32 data <= 4294967295.
Proof.
  unfold crc32.
  assert (H : forall c, 0 <= c < 2 ^ 32 ->
                        0 <= fold_left crc32_byte data c < 2 ^ 32).
  { induction data as [|b data IH]; intros c Hc; simpl; [exact Hc|].
    apply IH, crc32_byte_bound, Hc. }
  pose proof (lxor_bound 32 _ 0xFFFFFFFF (H 0xFFFFFFFF ltac:(lia)) ltac:(lia)).
  lia.
Qed.

Lemma pack_crc32 (data : bytes) :
  struct_pack_I (crc32 data) = Ok (be32 (crc32 data)).
Proof. apply pack_field_I_ok, crc32_bound. Qed.

(** * The two loops *)

Lemma fold_left_append {A B} (g : list A) (l : list B) (init : list A) :
  fold_left (fun acc _ => acc ++ g) l init
  = init ++ concat (repeat g (length l)).
Proof.
  revert init. induction l as [|y l IH]; intros init; simpl.
  - now rewrite app_nil_r.
  - rewrite IH, <- app_assoc. reflexivity.
Qed.

Lemma scanline_eq (width : Z) :
  scanline width = x00 :: concat (repeat green (Z.to_nat width)).
Proof.
  unfold scanline. rewrite fold_left_append, range_length. reflexivity.
Qed.

Lemma scanlines_eq (width height : Z) :
  scanlines width height = repeat (scanline width) (Z.to_nat height).
Proof.
  unfold scanlines.
  assert (H : forall (l : list Z) (init : list bytes),
             fold_left (fun acc _ => acc ++ [scanline width]) l init
             = init ++ repeat (scanline width) (length l)).
  { induction l as [|y l IH]; intros init; simpl.
    - now rewrite app_nil_r.
    - rewrite IH, <- app_assoc. reflexivity. }
  rewrite H, range_length. reflexivity.
Qed.

Lemma raw_data_eq (size : Z) :
  raw_data size
  = concat (repeat (x00 :: concat (repeat green (Z.to_nat size)))
                   (Z.to_nat size)).
Proof.
  unfold raw_data. rewrite scanlines_eq, scanline_eq. reflexivity.
Qed.

Lemma length_concat_repeat {A} (l : list A) (n : nat) :
  length (concat (repeat l n)) = (n * length l)%nat.
Proof.
  induction n as [|n IH]; simpl; [reflexivity|].
  rewrite length_app, IH. reflexivity.
Qed.

Lemma raw_data_len (size : Z) :
  0 <= size -> len (raw_data size) = size * (1 + 3 * size).
Proof.
  intros Hs. rewrite raw_data_eq. unfold len.
  rewrite length_concat_repeat. simpl length.
  rewrite length_concat_repeat. simpl length. nia.
Qed.

Lemma raw_data_nonpos (size : Z) : size <= 0 -> raw_data size = [].
Proof.
  intros Hs. rewrite raw_data_eq.
  replace (Z.to_nat size) with 0%nat by lia. reflexivity.
Qed.

(** * The three chunks and the assembled stream *)

Lemma ihdr_data_ok (size : Z) :
  0 <= size <= 4294967295 ->
  ihdr_data size = Ok (be32 size ++ be32 size ++ [x08; x02; x00; x00; x00]).
Proof.
  intros Hs. unfold ihdr_data, struct_pack_IIBBBBB.
  rewrite pack_field_I_ok by exact Hs. reflexivity.
Qed.

Lemma ihdr_data_err (size : Z) :
  size < 0 \/ 4294967295 < size -> ihdr_data size = Err StructError.
Proof.
  intros Hs. unfold ihdr_data, struct_pack_IIBBBBB.
  rewrite pack_field_I_err by exact Hs. reflexivity.
Qed.

Lemma ihdr_len (size : Z) :
  len (be32 size ++ be32 size ++ [x08; x02; x00; x00; x00]) = 13.
Proof. reflexivity. Qed.

Lemma ihdr_chunk_ok (size : Z) :
  0 <= size <= 4294967295 ->
  exists ihdr, ihdr_data size = Ok ihdr /\ length ihdr = 13%nat
               /\ ihdr_chunk size = Ok (serialized IHDR ihdr).
Proof.
  intros Hs.
  exists (be32 size ++ be32 size ++ [x08; x02; x00; x00; x00]).
  split; [apply ihdr_data_ok, Hs|].
  split; [reflexivity|].
  unfold ihdr_chunk. rewrite ihdr_data_ok by exact Hs.
  rewrite rbind_Ok.
  unfold struct_pack_I at 1. rewrite pack_field_I_ok by lia.
  rewrite rbind_Ok, pack_crc32, rbind_Ok.
  unfold serialized. rewrite ihdr_len. reflexivity.
Qed.

Lemma ihdr_chunk_err (size : Z) :
  size < 0 \/ 4294967295 < size -> ihdr_chunk size = Err StructError.
Proof.
  intros Hs. unfold ihdr_chunk. rewrite ihdr_data_err by exact Hs.
  apply rbind_Err.
Qed.

Lemma iend_chunk_ok : iend_chunk = Ok (serialized IEND []).
Proof.
  unfold iend_chunk.
  unfold struct_pack_I at 1. rewrite pack_field_I_ok by lia.
  rewrite rbind_Ok, pack_crc32, rbind_Ok.
  unfold serialized. rewrite !app_nil_r. reflexivity.
Qed.

Section Assembled.

Variable compress : bytes -> bytes.

Lemma idat_chunk_ok (size : Z) :
  len (compressed compress size) <= 4294967295 ->
  idat_chunk compress size = Ok (serialized IDAT (compressed compress size)).
Proof.
  intros Hl. unfold idat_chunk.
  unfold struct_pack_I at 1.
  rewrite pack_field_I_ok by (split; [apply len_nonneg | exact Hl]).
  rewrite rbind_Ok, pack_crc32, rbind_Ok. reflexivity.
Qed.

Lemma idat_chunk_err (size : Z) :
  4294967295 < len (compressed compress size) ->
  idat_chunk compress size = Err StructError.
Proof.
  intros Hl. unfold idat_chunk.
  unfold struct_pack_I at 1.
  rewrite pack_field_I_err by (right; exact Hl). apply rbind_Err.
Qed.

Lemma png_data_ok (size : Z) :
  0 <= size <= 4294967295 ->
  len (compressed compress size) <= 4294967295 ->
  exists ihdr, ihdr_data size = Ok ihdr /\ length ihdr = 13%nat
               /\ png_data compress size = Ok (png_layout compress size ihdr).
Proof.
  intros Hs Hl.
  destruct (ihdr_chunk_ok size Hs) as (ihdr & Hd & Hlen & Hc).
  exists ihdr. split; [exact Hd|]. split; [exact Hlen|].
  unfold png_data. rewrite Hc, rbind_Ok.
  rewrite idat_chunk_ok by exact Hl.
  rewrite rbind_Ok, iend_chunk_ok, rbind_Ok. reflexivity.
Qed.

Lemma png_data_err (size : Z) :
  size < 0 \/ 4294967295 < size ->
  png_data compress size = Err StructError.
Proof.
  intros Hs. unfold png_data. rewrite ihdr_chunk_err by exact Hs.
  apply rbind_Err.
Qed.

(** Every failure of the assembly is a [struct.error]. *)
Lemma png_data_fails_with (size : Z) (e : exn) :
  png_data compress size = Err e -> e = StructError.
Proof.
  destruct (Z_le_gt_dec 0 size) as [H0|H0];
    [destruct (Z_le_gt_dec size 4294967295) as [H1|H1]|].
  - destruct (Z_le_gt_dec (len (compressed compress size)) 4294967295)
      as [H2|H2].
    + destruct (png_data_ok size (conj H0 H1) H2) as (ihdr & _ & _ & E).
      rewrite E. discriminate.
    + destruct (ihdr_chunk_ok size (conj H0 H1)) as (ihdr & _ & _ & E).
      unfold png_data. rewrite E, rbind_Ok.
      rewrite idat_chunk_err by lia. rewrite rbind_Err. congruence.
  - rewrite png_data_err by lia. congruence.
  - rewrite png_data_err by lia. congruence.
Qed.

(** The assembly succeeds exactly when the size and the length of the
    compressed buffer both fit an ['I'] field. *)
Lemma png_data_succeeds_iff (size : Z) :
  (exists png, png_data compress size = Ok png)
  <-> 0 <= size <= 4294967295
      /\ len (compressed compress size) <= 4294967295.
Proof.
  split.
  - intros [png Hpng].
    destruct (Z_le_gt_dec 0 size) as [H0|H0];
      [destruct (Z_le_gt_dec size 4294967295) as [H1|H1]|].
    + destruct (Z_le_gt_dec (len (compressed compress size)) 4294967295)
        as [H2|H2]; [lia|].
      destruct (ihdr_chunk_ok size (conj H0 H1)) as (ihdr & _ & _ & E).
      unfold png_data in Hpng. rewrite E, rbind_Ok in Hpng.
      rewrite idat_chunk_err, rbind_Err in Hpng by lia. discriminate.
    + rewrite png_data_err in Hpng by lia. discriminate.
    + rewrite png_data_err in Hpng by lia. discriminate.
  - intros [Hs Hl].
    destruct (png_data_ok size Hs Hl) as (ihdr & _ & _ & E). eauto.
Qed.

(** ** create_icon, one call *)

Lemma bind_lift_Ok {A B} (a : A) (k : A -> M B) (w : world) :
  bind (lift (Ok a)) k w = k a w.
Proof. reflexivity. Qed.

Lemma bind_lift_Err {A B} (e : exn) (k : A -> M B) (w : world) :
  bind (lift (Err e)) k w = (Err e, w).
Proof. reflexivity. Qed.

Lemma raw_data_inline (size : Z) :
  concat
    (fold_left
       (fun scanlines (_ : Z) =>
          scanlines
          ++ [fold_left (fun scanline (_ : Z) => scanline ++ green)
                        (range size) [x00]])
       (range size) [])
  = raw_data size.
Proof. reflexivity. Qed.

(** The statement-by-statement function and the locals agree: the call
    assembles [png_data], and only then opens the file. *)
Lemma create_icon_unfold (size : Z) (filename : string) (w : world) :
  create_icon compress size filename w =
  match png_data compress size with
  | Err e => (Err e, w)
  | Ok data =>
      if decide (filename ∈ unwritable w) then (Err OSError, w)
      else (Ok tt, World (<[filename := data]> (files w)) (unwritable w)
                         (stdout w ++ ["Created " +:+ filename]))
  end.
Proof.
  unfold create_icon. cbv zeta.
  rewrite raw_data_inline. fold (compressed compress size).
  destruct (Z_le_gt_dec 0 size) as [H0|H0];
    [destruct (Z_le_gt_dec size 4294967295) as [H1|H1]|].
  - pose proof (ihdr_data_ok size (conj H0 H1)) as Hd.
    unfold ihdr_data in Hd. cbv zeta in Hd.
    rewrite Hd, bind_lift_Ok.
    unfold struct_pack_I at 1. rewrite pack_field_I_ok by lia.
    rewrite bind_lift_Ok, pack_crc32, bind_lift_Ok.
    destruct (Z_le_gt_dec (len (compressed compress size)) 4294967295)
      as [H2|H2].
    + destruct (png_data_ok size (conj H0 H1) H2) as (ihdr & Hd' & _ & E).
      assert (Ei : ihdr = be32 size ++ be32 size ++ [x08; x02; x00; x00; x00])
        by (rewrite ihdr_data_ok in Hd' by lia; congruence).
      subst ihdr. rewrite E.
      unfold struct_pack_I at 1.
      rewrite pack_field_I_ok by (split; [apply len_nonneg | exact H2]).
      rewrite bind_lift_Ok, pack_crc32, bind_lift_Ok.
      unfold struct_pack_I at 1. rewrite pack_field_I_ok by lia.
      rewrite bind_lift_Ok, pack_crc32, bind_lift_Ok.
      unfold bind, write_file, print.
      destruct (decide (filename ∈ unwritable w)); [reflexivity|].
      cbn [files unwritable stdout].
      unfold png_layout, serialized.
      rewrite ihdr_len, !app_nil_r. reflexivity.
    + destruct (ihdr_chunk_ok size (conj H0 H1)) as (ihdr & _ & _ & E).
      unfold png_data. rewrite E, rbind_Ok.
      rewrite idat_chunk_err, rbind_Err by lia.
      unfold struct_pack_I at 1. rewrite pack_field_I_err by lia.
      apply bind_lift_Err.
  - rewrite png_data_err by lia.
    pose proof (ihdr_data_err size ltac:(lia)) as Hd.
    unfold ihdr_data in Hd. cbv zeta in Hd.
    rewrite Hd. apply bind_lift_Err.
  - rewrite png_data_err by lia.
    pose proof (ihdr_data_err size ltac:(lia)) as Hd.
    unfold ihdr_data in Hd. cbv zeta in Hd.
    rewrite Hd. apply bind_lift_Err.
Qed.

End Assembled.

(** * Reading the stream back *)

Lemma unpack_I_take_be32 (v : Z) (rest : bytes) :
  0 <= v <= 4294967295 -> unpack_I (firstn 4 (be32 v ++ rest)) = Some v.
Proof.
  intros Hv. change (firstn 4 (be32 v ++ rest)) with (be32 v).
  apply unpack_I_be32, Hv.
Qed.

Lemma to_nat_len {A} (l : list A) : Z.to_nat (len l) = length l.
Proof. unfold len. apply Nat2Z.id. Qed.

Lemma read_chunks_step (fuel : nat) (s : bytes) :
  s <> [] ->
  read_chunks (S fuel) s
  = match unpack_I (firstn 4 s) with
    | None => None
    | Some n =>
        let body := skipn 8 s in
        if n + 4 <=? len body then
          match unpack_I (firstn 4 (skipn (Z.to_nat n) body)) with
          | None => None
          | Some c =>
              match read_chunks fuel (skipn (Z.to_nat n + 4) body) with
              | None => None
              | Some cs =>
                  Some (Chunk n (firstn 4 (skipn 4 s))
                              (firstn (Z.to_nat n) body) c :: cs)
              end
          end
        else None
    end.
Proof. destruct s; [congruence | reflexivity]. Qed.

Lemma read_chunks_serialized (fuel : nat) (type payload rest : bytes) :
  length type = 4%nat ->
  len payload <= 4294967295 ->
  read_chunks (S fuel) (serialized type payload ++ rest)
  = match read_chunks fuel rest with
    | Some cs =>
        Some (Chunk (len payload) type payload (crc32 (type ++ payload)) :: cs)
    | None => None
    end.
Proof.
  intros Ht Hl.
  pose proof (len_nonneg payload) as Hp.
  pose proof (crc32_bound (type ++ payload)) as Hc.
  set (c := crc32 (type ++ payload)) in *.
  set (s := serialized type payload ++ rest).
  assert (Hs : s = be32 (len payload) ++ type ++ payload ++ be32 c ++ rest).
  { unfold s, serialized. now rewrite <- !app_assoc. }
  assert (H4 : firstn 4 s = be32 (len payload)).
  { rewrite Hs. now apply take_app_length'. }
  assert (Ht4 : firstn 4 (skipn 4 s) = type).
  { rewrite Hs, drop_app_length' by reflexivity. now apply take_app_length'. }
  assert (H8 : skipn 8 s = payload ++ be32 c ++ rest).
  { rewrite Hs. change 8%nat with (4 + 4)%nat.
    rewrite <- drop_drop, drop_app_length' by reflexivity.
    now rewrite drop_app_length' by (symmetry; exact Ht). }
  rewrite read_chunks_step.
  2:{ rewrite Hs. discriminate. }
  rewrite H4, unpack_I_be32 by lia. cbv zeta.
  rewrite Ht4, H8.
  replace (len payload + 4 <=? len (payload ++ be32 c ++ rest)) with true.
  2:{ symmetry. apply Z.leb_le. rewrite !len_app.
      pose proof (len_nonneg rest). change (len (be32 c)) with 4. lia. }
  rewrite to_nat_len, take_app_length, drop_app_length.
  rewrite unpack_I_take_be32 by lia.
  rewrite <- drop_drop, drop_app_length.
  change (drop 4 (be32 c ++ rest)) with rest.
  reflexivity.
Qed.

Lemma read_chunks_nil (fuel : nat) : read_chunks fuel [] = Some [].
Proof. destruct fuel; reflexivity. Qed.

Lemma IHDR_length : length IHDR = 4%nat.
Proof. reflexivity. Qed.

Lemma IDAT_length : length IDAT = 4%nat.
Proof. reflexivity. Qed.

Lemma IEND_length : length IEND = 4%nat.
Proof. reflexivity. Qed.

Lemma read_png_layout (compress : bytes -> bytes) (size : Z) (ihdr : bytes) :
  length ihdr = 13%nat ->
  len (compressed compress size) <= 4294967295 ->
  read_png (png_layout compress size ihdr)
  = Some [ Chunk 13 IHDR ihdr (crc32 (IHDR ++ ihdr));
           Chunk (len (compressed compress size)) IDAT
                 (compressed compress size)
                 (crc32 (IDAT ++ compressed compress size));
           Chunk 0 IEND [] (crc32 (IEND ++ [])) ].
Proof.
  intros Hi Hc.
  assert (Hi' : len ihdr = 13) by (unfold len; rewrite Hi; reflexivity).
  unfold read_png, png_layout.
  set (rest := serialized IHDR ihdr ++ _).
  rewrite take_app_length' by reflexivity.
  rewrite decide_True by reflexivity.
  rewrite drop_app_length' by reflexivity.
  rewrite length_app. change (length header) with 8%nat.
  change (8 + length rest)%nat with (S (S (S (S (4 + length rest))))).
  unfold rest.
  rewrite read_chunks_serialized by (try apply IHDR_length; lia).
  rewrite read_chunks_serialized by (try apply IDAT_length; lia).
  rewrite <- (app_nil_r (serialized IEND [])).
  rewrite read_chunks_serialized
    by (try apply IEND_length; change (len (@nil byte)) with 0; lia).
  rewrite read_chunks_nil, Hi'. reflexivity.
Qed.

(** * The header chunk *)

(** C4 (amended).  For every size from 1 to 4294967295, the IHDR payload
    built by [create_icon] is exactly 13 bytes: width = size and
    height = size, each a 4-byte big-endian unsigned integer, then the
    bytes 8 (bit depth), 2 (colour type), 0, 0, 0; and the length field of
    the IHDR chunk reads 13. *)
Theorem ihdr_contents_in_range (size : Z) :
  0 < size <= 4294967295 -> ihdr_contents size.
Proof.
  intros Hs.
  assert (Hs' : 0 <= size <= 4294967295) by lia.
  destruct (ihdr_chunk_ok size Hs') as (ihdr & Hd & Hlen & Hc).
  pose proof (ihdr_data_ok size Hs') as Hd'.
  rewrite Hd in Hd'. injection Hd' as ->.
  exists (be32 size ++ be32 size ++ [x08; x02; x00; x00; x00]).
  exists (serialized IHDR (be32 size ++ be32 size ++ [x08; x02; x00; x00; x00])).
  split; [exact Hd|]. split; [reflexivity|]. split; [exact Hlen|].
  split; [apply unpack_I_take_be32, Hs'|].
  split.
  { rewrite drop_app_length' by reflexivity. apply unpack_I_take_be32, Hs'. }
  split.
  { change 8%nat with (4 + 4)%nat.
    rewrite <- drop_drop, !drop_app_length' by reflexivity. reflexivity. }
  split; [exact Hc|].
  unfold serialized. rewrite ihdr_len. apply unpack_I_take_be32. lia.
Qed.

Lemma ihdr_contents_witness :
  0 < 16 <= 4294967295 /\ ihdr_contents 16.
Proof.
  split; [lia | apply (ihdr_contents_in_range 16); lia].
Defined.

(** At size 2^32 (a positive size) no IHDR payload is built: packing the
    width raises [struct.error]. *)
Lemma ihdr_contents_fails_at_2_32 :
  0 < 4294967296 /\ ihdr_data 4294967296 = Err StructError
  /\ ~ ihdr_contents 4294967296.
Proof.
  split; [lia|].
  assert (E : ihdr_data 4294967296 = Err StructError)
    by (apply ihdr_data_err; lia).
  split; [exact E|].
  intros (ihdr & chunk & H & _). rewrite E in H. discriminate.
Qed.

(** * The chunk invariant *)

(** C2 (amended).  For every size from 1 to 4294967295 whose compressed
    buffer is at most 4294967295 bytes long, the stream assembled by
    [create_icon] reads back as the three chunks IHDR, IDAT and IEND, each
    with a length field equal to the byte length of its payload (13, the
    length of the compressed buffer, and 0) and a CRC field equal to the
    CRC-32 of the type bytes followed by the payload. *)
Theorem chunk_invariant_in_range (compress : bytes -> bytes) (size : Z) :
  0 < size <= 4294967295 ->
  len (compressed compress size) <= 4294967295 ->
  chunk_invariant compress size.
Proof.
  intros Hs Hl.
  destruct (png_data_ok compress size ltac:(lia) Hl)
    as (ihdr & Hd & Hlen & Hpng).
  assert (Hi : 13 = len ihdr) by (unfold len; rewrite Hlen; reflexivity).
  exists (png_layout compress size ihdr), ihdr.
  eexists. split; [exact Hpng|]. split; [exact Hd|].
  split; [apply read_png_layout; assumption|].
  split; [reflexivity|]. split; [reflexivity|]. split; [reflexivity|].
  repeat constructor; try exact Hi.
Qed.

Lemma chunk_invariant_witness :
  0 < 2 <= 4294967295
  /\ len (compressed zlib_store 2) <= 4294967295
  /\ chunk_invariant zlib_store 2.
Proof.
  assert (Hl : len (compressed zlib_store 2) <= 4294967295)
    by (vm_compute; discriminate).
  split; [lia|]. split; [exact Hl|].
  apply (chunk_invariant_in_range zlib_store 2); [lia | exact Hl].
Defined.

(** At size 2^32 no chunk is produced at all: whatever the compressor,
    the assembly raises [struct.error] while packing the header. *)
Lemma chunk_invariant_fails_at_2_32 :
  0 < 4294967296
  /\ (forall compress, png_data compress 4294967296 = Err StructError)
  /\ (forall compress, ~ chunk_invariant compress 4294967296).
Proof.
  split; [lia|].
  assert (E : forall compress, png_data compress 4294967296 = Err StructError)
    by (intros compress; apply png_data_err; lia).
  split; [exact E|].
  intros compress (png & ihdr & chunks & H & _). rewrite E in H. discriminate.
Qed.

(** * The layout of the written file *)

Lemma create_icon_writes (compress : bytes -> bytes) (size : Z)
    (filename : string) (w : world) (data : bytes) :
  png_data compress size = Ok data ->
  filename ∉ unwritable w ->
  create_icon compress size filename w
  = (Ok tt, World (<[filename := data]> (files w)) (unwritable w)
                  (stdout w ++ ["Created " +:+ filename])).
Proof.
  intros Hd Hw. rewrite create_icon_unfold, Hd.
  now rewrite decide_False by exact Hw.
Qed.

(** C3 (amended).  For every size from 1 to 4294967295 whose compressed
    buffer is at most 4294967295 bytes long, and every path that can be
    opened for writing, the bytes [create_icon] writes are exactly the
    signature 89 50 4E 47 0D 0A 1A 0A, the serialized IHDR chunk, one
    serialized IDAT chunk and the serialized IEND chunk, a serialized
    chunk being big-endian length, type, payload, big-endian CRC; the
    written file begins with the signature. *)
Theorem create_icon_writes_layout (compress : bytes -> bytes) (size : Z)
    (filename : string) (w : world) :
  0 < size <= 4294967295 ->
  len (compressed compress size) <= 4294967295 ->
  filename ∉ unwritable w ->
  writes_layout compress size filename w.
Proof.
  intros Hs Hl Hw.
  destruct (png_data_ok compress size ltac:(lia) Hl)
    as (ihdr & Hd & Hlen & Hpng).
  exists ihdr. eexists. split; [exact Hd|].
  split; [apply create_icon_writes; eassumption|].
  assert (E : files (World (<[filename := png_layout compress size ihdr]> (files w))
                           (unwritable w)
                           (stdout w ++ ["Created " +:+ filename]))
              !! filename
              = Some (png_layout compress size ihdr))
    by apply lookup_insert_eq.
  split; [exact E|].
  rewrite E. reflexivity.
Qed.

Lemma create_icon_writes_layout_witness :
  0 < 2 <= 4294967295
  /\ len (compressed zlib_store 2) <= 4294967295
  /\ ("icon2.png"%string ∉ unwritable empty_world)
  /\ writes_layout zlib_store 2 "icon2.png" empty_world.
Proof.
  assert (Hl : len (compressed zlib_store 2) <= 4294967295)
    by (vm_compute; discriminate).
  assert (Hw : "icon2.png"%string ∉ unwritable empty_world)
    by apply not_elem_of_empty.
  split; [lia|]. split; [exact Hl|]. split; [exact Hw|].
  apply (create_icon_writes_layout zlib_store 2 "icon2.png" empty_world);
    [lia | exact Hl | exact Hw].
Defined.

(** At size 2^32 nothing is written: whatever the compressor, the path
    and the world, the call raises [struct.error] and leaves the world as
    it was. *)
Lemma writes_layout_fails_at_2_32 :
  0 < 4294967296
  /\ (forall compress filename w,
        create_icon compress 4294967296 filename w = (Err StructError, w))
  /\ (forall compress filename w,
        ~ writes_layout compress 4294967296 filename w).
Proof.
  split; [lia|].
  assert (E : forall compress filename w,
             create_icon compress 4294967296 filename w
             = (Err StructError, w)).
  { intros. rewrite create_icon_unfold, png_data_err by lia. reflexivity. }
  split; [exact E|].
  intros compress filename w (ihdr & w' & _ & H & _).
  rewrite E in H. discriminate.
Qed.

(** * The trailer *)

(** C6 (amended).  For every size from 1 to 4294967295 whose compressed
    buffer is at most 4294967295 bytes long, the last chunk of the stream
    assembled by [create_icon] is IEND with an empty payload, its length
    field is 0, and its CRC field is the CRC-32 of the four bytes IEND. *)
Theorem iend_trailer_in_range (compress : bytes -> bytes) (size : Z) :
  0 < size <= 4294967295 ->
  len (compressed compress size) <= 4294967295 ->
  iend_trailer compress size.
Proof.
  intros Hs Hl.
  destruct (png_data_ok compress size ltac:(lia) Hl)
    as (ihdr & Hd & Hlen & Hpng).
  exists (png_layout compress size ihdr).
  exists (header ++ serialized IHDR ihdr
                 ++ serialized IDAT (compressed compress size)).
  eexists. split; [exact Hpng|].
  split.
  { unfold png_layout. rewrite <- !app_assoc.
    unfold serialized at 3. rewrite !app_nil_r. reflexivity. }
  split; [apply read_png_layout; assumption|].
  rewrite app_nil_r. reflexivity.
Qed.

Lemma iend_trailer_witness :
  0 < 2 <= 4294967295
  /\ len (compressed zlib_store 2) <= 4294967295
  /\ iend_trailer zlib_store 2.
Proof.
  assert (Hl : len (compressed zlib_store 2) <= 4294967295)
    by (vm_compute; discriminate).
  split; [lia|]. split; [exact Hl|].
  apply (iend_trailer_in_range zlib_store 2); [lia | exact Hl].
Defined.

(** At size 2^32 there is no stream, hence no final chunk, whatever the
    compressor. *)
Lemma iend_trailer_fails_at_2_32 :
  0 < 4294967296
  /\ (forall compress, png_data compress 4294967296 = Err StructError)
  /\ (forall compress, ~ iend_trailer compress 4294967296).
Proof.
  split; [lia|].
  assert (E : forall compress, png_data compress 4294967296 = Err StructError)
    by (intros compress; apply png_data_err; lia).
  split; [exact E|].
  intros compress (png & before & chunks & H & _).
  rewrite E in H. discriminate.
Qed.

(** * The raw scanline buffer *)

Lemma png_data_cases (compress : bytes -> bytes) (size : Z) :
  0 <= size <= 4294967295 ->
  png_data compress size
  = if 4294967295 <? len (compressed compress size) then Err StructError
    else Ok (png_layout compress size
               (be32 size ++ be32 size ++ [x08; x02; x00; x00; x00])).
Proof.
  intros Hs.
  destruct (Z.ltb_spec 4294967295 (len (compressed compress size)))
    as [Hbig|Hfit].
  - destruct (ihdr_chunk_ok size Hs) as (ihdr & _ & _ & E).
    unfold png_data. rewrite E, rbind_Ok.
    rewrite idat_chunk_err by exact Hbig. apply rbind_Err.
  - destruct (png_data_ok compress size Hs Hfit) as (ihdr & Hd & _ & Hpng).
    assert (Ei : ihdr = be32 size ++ be32 size ++ [x08; x02; x00; x00; x00])
      by (rewrite ihdr_data_ok in Hd by exact Hs; congruence).
    now rewrite Hpng, Ei.
Qed.

(** C5 (amended).  For every size from 1 to 4294967295, the uncompressed
    buffer [create_icon] builds and hands to the compressor is the
    concatenation of [size] rows, each row one filter byte 0x00 followed
    by [size] copies of the triple 0x4C 0xAF 0x50, and its length is
    [size * (1 + 3 * size)]. *)
Theorem create_icon_builds_rows (size : Z) :
  0 < size <= 4294967295 -> builds_rows size.
Proof.
  intros Hs. unfold builds_rows. cbv zeta.
  change [x4c; xaf; x50] with green.
  rewrite <- raw_data_eq.
  split; [apply raw_data_len; lia|].
  intros compress filename w.
  rewrite create_icon_unfold, png_data_cases by lia.
  unfold compressed.
  destruct (4294967295 <? len (compress (raw_data size))); reflexivity.
Qed.

Lemma create_icon_builds_rows_witness :
  0 < 2 <= 4294967295 /\ builds_rows 2.
Proof.
  split; [lia | apply (create_icon_builds_rows 2); lia].
Defined.

(** At size 2^32 no buffer is built and the compressor is never reached:
    whatever the compressor, the path and the world, the call raises
    [struct.error] while packing the header. *)
Lemma builds_rows_fails_at_2_32 :
  0 < 4294967296
  /\ (forall compress filename w,
        create_icon compress 4294967296 filename w = (Err StructError, w))
  /\ ~ builds_rows 4294967296.
Proof.
  split; [lia|].
  assert (E : forall compress filename w,
             create_icon compress 4294967296 filename w
             = (Err StructError, w)).
  { intros. rewrite create_icon_unfold, png_data_err by lia. reflexivity. }
  split; [exact E|].
  unfold builds_rows. cbv zeta. intros [_ H].
  specialize (H (fun _ => []) "icon.png"%string empty_world).
  rewrite E in H. cbv beta in H.
  change (4294967295 <? len (@nil byte)) with false in H.
  cbv iota in H.
  destruct (decide ("icon.png"%string ∈ unwritable empty_world)) as [Hin|_].
  - exact (not_elem_of_empty _ Hin).
  - discriminate H.
Qed.

(** * Sizes that are not positive *)

(** C10.  For every size < 0, [create_icon] raises [struct.error] while
    packing the IHDR fields, before the output file is opened: the call
    leaves every file, and the rest of the world, as it was. *)
Theorem negative_size_raises_before_open (compress : bytes -> bytes)
    (size : Z) (filename : string) (w : world) :
  size < 0 ->
  ihdr_data size = Err StructError
  /\ create_icon compress size filename w = (Err StructError, w)
  /\ files (snd (create_icon compress size filename w)) = files w.
Proof.
  intros Hs.
  assert (E : create_icon compress size filename w = (Err StructError, w)).
  { rewrite create_icon_unfold, png_data_err by lia. reflexivity. }
  split; [apply ihdr_data_err; lia|].
  split; [exact E|]. rewrite E. reflexivity.
Qed.

Lemma negative_size_raises_before_open_witness :
  -1 < 0
  /\ ihdr_data (-1) = Err StructError
  /\ create_icon zlib_store (-1) "icon.png" empty_world
     = (Err StructError, empty_world)
  /\ files (snd (create_icon zlib_store (-1) "icon.png" empty_world))
     = files empty_world.
Proof.
  split; [lia|].
  apply (negative_size_raises_before_open zlib_store (-1) "icon.png"
           empty_world).
  lia.
Defined.

(** The header payload of a 0 by 0 image. *)
Lemma ihdr_data_zero :
  ihdr_data 0 = Ok (be32 0 ++ be32 0 ++ [x08; x02; x00; x00; x00]).
Proof. apply ihdr_data_ok. lia. Qed.

(** C7 (amended).  The script validates nothing and there is no
    [InvalidSize]: for every size < 0 the call raises [struct.error] and
    writes no file, and size 0 is not rejected.  At size 0 the call
    compresses the empty buffer and, unless the length of the result does
    not fit in 32 bits or the path cannot be opened, writes a PNG of
    width 0 and height 0. *)
Theorem nonpositive_size_behaviour (compress : bytes -> bytes) (size : Z)
    (filename : string) (w : world) :
  size <= 0 ->
  create_icon compress size filename w
  = if size <? 0 then (Err StructError, w)
    else if 4294967295 <? len (compress []) then (Err StructError, w)
    else if decide (filename ∈ unwritable w) then (Err OSError, w)
    else (Ok tt,
          World (<[filename :=
                     png_layout compress 0
                       (be32 0 ++ be32 0 ++ [x08; x02; x00; x00; x00])]>
                   (files w))
                (unwritable w)
                (stdout w ++ ["Created " +:+ filename])).
Proof.
  intros Hs. rewrite create_icon_unfold.
  destruct (Z.ltb_spec size 0) as [Hneg|Hnn].
  { rewrite png_data_err by lia. reflexivity. }
  assert (size = 0) by lia. subst size.
  assert (Hc : compressed compress 0 = compress []) by reflexivity.
  destruct (Z.ltb_spec 4294967295 (len (compress []))) as [Hbig|Hfit].
  - destruct (ihdr_chunk_ok 0 ltac:(lia)) as (ihdr & _ & _ & E).
    unfold png_data. rewrite E, rbind_Ok.
    rewrite idat_chunk_err by (rewrite Hc; exact Hbig).
    rewrite rbind_Err. reflexivity.
  - destruct (png_data_ok compress 0 ltac:(lia) ltac:(rewrite Hc; exact Hfit))
      as (ihdr & Hd & _ & Hpng).
    rewrite ihdr_data_zero in Hd. injection Hd as <-.
    rewrite Hpng. reflexivity.
Qed.

Lemma nonpositive_size_behaviour_witness :
  0 <= 0
  /\ fst (create_icon zlib_store 0 "icon0.png" empty_world) = Ok tt.
Proof.
  split; [lia|].
  rewrite (nonpositive_size_behaviour zlib_store 0 "icon0.png" empty_world)
    by lia.
  reflexivity.
Defined.

(** Size 0 is accepted: the call returns normally and has written a file
    (the signature, a header chunk for a 0 by 0 image, a data chunk and
    the trailer). *)
Lemma create_icon_zero_writes_a_file :
  0 <= 0
  /\ fst (create_icon zlib_store 0 "icon0.png" empty_world) = Ok tt
  /\ files (snd (create_icon zlib_store 0 "icon0.png" empty_world))
     !! "icon0.png"%string
     = Some (header
             ++ serialized IHDR [x00; x00; x00; x00; x00; x00; x00; x00;
                                 x08; x02; x00; x00; x00]
             ++ serialized IDAT (zlib_store [])
             ++ serialized IEND []).
Proof.
  split; [lia|]. split; vm_compute; reflexivity.
Qed.

(** * The driver *)

Section Driver.

Variable compress : bytes -> bytes.

(** A call that raises has changed nothing. *)
Lemma create_icon_raises_unchanged (size : Z) (filename : string)
    (w w' : world) (e : exn) :
  create_icon compress size filename w = (Err e, w') -> w' = w.
Proof.
  rewrite create_icon_unfold.
  destruct (png_data compress size) as [data|e'].
  - destruct (decide (filename ∈ unwritable w)); congruence.
  - congruence.
Qed.

Lemma run_calls_app (pre post : list (Z * string)) (w : world) :
  run_calls compress (pre ++ post) w
  = match run_calls compress pre w with
    | (Ok _, w1) => run_calls compress post w1
    | (Err e, w1) => (Err e, w1)
    end.
Proof.
  revert w. induction pre as [|[size filename] pre IH]; intros w.
  - reflexivity.
  - rewrite <- app_comm_cons. cbn [run_calls].
    destruct (create_icon compress size filename w) as [[[]|e] w1].
    + apply IH.
    + reflexivity.
Qed.

Lemma main_run_calls (w : world) :
  main compress w = run_calls compress icons w.
Proof.
  unfold main, icons, bind. cbn [run_calls].
  destruct (create_icon compress 16 "icon16.png" w) as [[[]|e1] w1];
    [|reflexivity].
  destruct (create_icon compress 32 "icon32.png" w1) as [[[]|e2] w2];
    [|reflexivity].
  destruct (create_icon compress 48 "icon48.png" w2) as [[[]|e3] w3];
    [|reflexivity].
  destruct (create_icon compress 128 "icon128.png" w3) as [[[]|e4] w4];
    reflexivity.
Qed.

(** C8 (amended).  The driver makes the calls (16, icon16.png),
    (32, icon32.png), (48, icon48.png), (128, icon128.png) in this
    order, each only after the calls before it have returned normally.
    If one call fails, with a write error or otherwise, the driver
    stops there with that error, in the world that call leaves behind:
    none of the remaining calls is made. *)
Theorem driver_stops_at_first_failure
    (pre post : list (Z * string)) (size : Z) (filename : string)
    (w w1 w2 : world) (e : exn) :
  icons = pre ++ (size, filename) :: post ->
  run_calls compress pre w = (Ok tt, w1) ->
  create_icon compress size filename w1 = (Err e, w2) ->
  main compress w = run_calls compress icons w
  /\ main compress w = (Err e, w2).
Proof.
  intros Hsplit Hpre Hfail.
  split; [apply main_run_calls|].
  rewrite main_run_calls, Hsplit, run_calls_app, Hpre.
  cbn [run_calls]. rewrite Hfail. reflexivity.
Qed.

(** When no call fails, the four files are written and the four
    confirmation lines are printed, in the order of the calls. *)
Lemma main_all_succeed (w : world) (d16 d32 d48 d128 : bytes) :
  png_data compress 16 = Ok d16 ->
  png_data compress 32 = Ok d32 ->
  png_data compress 48 = Ok d48 ->
  png_data compress 128 = Ok d128 ->
  (forall f, In f (map snd icons) -> f ∉ unwritable w) ->
  main compress w
  = (Ok tt,
     World (<["icon128.png"%string := d128]>
             (<["icon48.png"%string := d48]>
               (<["icon32.png"%string := d32]>
                 (<["icon16.png"%string := d16]> (files w)))))
           (unwritable w)
           ((((stdout w ++ ["Created icon16.png"%string])
                ++ ["Created icon32.png"%string])
                ++ ["Created icon48.png"%string])
                ++ ["Created icon128.png"%string])).
Proof.
  intros H16 H32 H48 H128 Hw.
  unfold main, bind.
  rewrite (create_icon_writes _ _ _ _ _ H16)
    by (apply Hw; cbn; tauto).
  rewrite (create_icon_writes _ _ _ _ _ H32)
    by (apply Hw; cbn; tauto).
  rewrite (create_icon_writes _ _ _ _ _ H48)
    by (apply Hw; cbn; tauto).
  rewrite (create_icon_writes _ _ _ _ _ H128)
    by (apply Hw; cbn; tauto).
  reflexivity.
Qed.

(** * Determinism *)

(** C9.  The bytes [create_icon] writes depend on the size alone: two
    calls with the same size, whatever their paths and whatever the
    worlds they start from, write the same bytes, namely the stream
    assembled in memory from the size. *)
Theorem create_icon_deterministic (size : Z) (f1 f2 : string)
    (w1 w2 w1' w2' : world) :
  create_icon compress size f1 w1 = (Ok tt, w1') ->
  create_icon compress size f2 w2 = (Ok tt, w2') ->
  exists data,
    png_data compress size = Ok data
    /\ files w1' !! f1 = Some data
    /\ files w2' !! f2 = Some data.
Proof.
  rewrite !create_icon_unfold.
  destruct (png_data compress size) as [data|e]; [|discriminate].
  destruct (decide (f1 ∈ unwritable w1)); [discriminate|].
  destruct (decide (f2 ∈ unwritable w2)); [discriminate|].
  intros E1 E2. injection E1 as <-. injection E2 as <-.
  exists data. split; [reflexivity|].
  split; apply lookup_insert_eq.
Qed.

End Driver.

Lemma driver_stops_at_first_failure_witness :
  icons = [(16, "icon16.png"%string)]
          ++ (32, "icon32.png"%string)
          :: [(48, "icon48.png"%string); (128, "icon128.png"%string)]
  /\ main zlib_store locked_world
     = (Err OSError,
        snd (create_icon zlib_store 16 "icon16.png" locked_world)).
Proof.
  split; [reflexivity|].
  refine (proj2 (driver_stops_at_first_failure zlib_store
                   [(16, "icon16.png"%string)]
                   [(48, "icon48.png"%string); (128, "icon128.png"%string)]
                   32 "icon32.png" locked_world
                   (snd (create_icon zlib_store 16 "icon16.png" locked_world))
                   (snd (create_icon zlib_store 16 "icon16.png" locked_world))
                   OSError _ _ _)).
  - reflexivity.
  - vm_compute. reflexivity.
  - vm_compute. reflexivity.
Defined.

(** With [icon32.png] locked, the driver ends with the write error of the
    second call.  The third and fourth files are never created, although
    nothing stands in their way: the third call, made in the world the
    driver leaves behind, returns normally. *)
Lemma driver_abandons_remaining_calls :
  fst (main zlib_store locked_world) = Err OSError
  /\ files (snd (main zlib_store locked_world)) !! "icon48.png"%string = None
  /\ files (snd (main zlib_store locked_world)) !! "icon128.png"%string = None
  /\ stdout (snd (main zlib_store locked_world)) = ["Created icon16.png"%string]
  /\ fst (create_icon zlib_store 48 "icon48.png"
            (snd (main zlib_store locked_world))) = Ok tt.
Proof.
  split; [|split; [|split; [|split]]]; vm_compute; reflexivity.
Qed.

Lemma create_icon_deterministic_witness :
  exists data,
    png_data zlib_store 2 = Ok data
    /\ files (snd (create_icon zlib_store 2 "a.png" empty_world))
       !! "a.png"%string = Some data
    /\ files (snd (create_icon zlib_store 2 "b.png" locked_world))
       !! "b.png"%string = Some data.
Proof.
  apply (create_icon_deterministic zlib_store 2 "a.png" "b.png"
           empty_world locked_world);
    vm_compute; reflexivity.
Defined.

(** * The storing codec is a zlib inverse pair *)

Lemma adler32_bound (data : bytes) : 0 <= adler32 data <= 4294967295.
Proof.
  unfold adler32.
  assert (H : forall s, 0 <= fst s < 65521 /\ 0 <= snd s < 65521 ->
              0 <= fst (fold_left adler32_step data s) < 65521
              /\ 0 <= snd (fold_left adler32_step data s) < 65521).
  { induction data as [|b data IH]; intros s Hs; simpl; [exact Hs|].
    apply IH. unfold adler32_step. cbn [fst snd].
    split; apply Z.mod_pos_bound; lia. }
  specialize (H (1, 0)). cbn [fst snd] in H.
  destruct (H ltac:(lia)) as [Ha Hb]. cbv zeta. lia.
Qed.

Lemma le16_decode (v : Z) :
  0 <= v <= 65535 ->
  Z_of_byte (byte_of_Z v) + 256 * Z_of_byte (byte_of_Z (Z.shiftr v 8)) = v.
Proof.
  intros Hv. rewrite !Z_of_byte_of_Z, Z.shiftr_div_pow2 by lia.
  change (2 ^ 8) with 256.
  Z.to_euclidean_division_equations. lia.
Qed.

Lemma lxor_FFFF_bound (v : Z) :
  0 <= v <= 65535 -> 0 <= Z.lxor v 0xFFFF <= 65535.
Proof.
  intros Hv.
  pose proof (lxor_bound 16 v 0xFFFF ltac:(lia) ltac:(lia)). lia.
Qed.

Lemma block_max_Z : Z.of_nat block_max = 65535.
Proof. reflexivity. Qed.

Lemma stored_block_cons (final : bool) (d rest : bytes) :
  stored_block final d ++ rest
  = (if final then x01 else x00)
      :: byte_of_Z (len d) :: byte_of_Z (Z.shiftr (len d) 8)
      :: byte_of_Z (Z.lxor (len d) 0xFFFF)
      :: byte_of_Z (Z.shiftr (Z.lxor (len d) 0xFFFF) 8)
      :: d ++ rest.
Proof. reflexivity. Qed.

Lemma stored_block_length (final : bool) (d : bytes) :
  length (stored_block final d) = (5 + length d)%nat.
Proof. reflexivity. Qed.

Lemma inflate_stored_step (fuel : nat) (h l0 l1 n0 n1 : byte) (rest : bytes) :
  inflate_stored (S fuel) (h :: l0 :: l1 :: n0 :: n1 :: rest)
  = let n := Z_of_byte l0 + 256 * Z_of_byte l1 in
    let nn := Z_of_byte n0 + 256 * Z_of_byte n1 in
    if (nn =? Z.lxor n 0xFFFF) && (n <=? len rest) then
      let d := firstn (Z.to_nat n) rest in
      let rest' := skipn (Z.to_nat n) rest in
      if decide (h = x01) then Some (d, rest')
      else if decide (h = x00) then
        match inflate_stored fuel rest' with
        | Some (d', r) => Some (d ++ d', r)
        | None => None
        end
      else None
    else None.
Proof. reflexivity. Qed.

Lemma inflate_stored_block (fuel : nat) (final : bool) (d rest : bytes) :
  len d <= 65535 ->
  inflate_stored (S fuel) (stored_block final d ++ rest)
  = if final then Some (d, rest)
    else match inflate_stored fuel rest with
         | Some (d', r) => Some (d ++ d', r)
         | None => None
         end.
Proof.
  intros Hd. pose proof (len_nonneg d) as Hd0.
  rewrite stored_block_cons, inflate_stored_step. cbv zeta.
  rewrite !le16_decode by (try apply lxor_FFFF_bound; lia).
  rewrite Z.eqb_refl.
  replace (len d <=? len (d ++ rest)) with true.
  2:{ symmetry. apply Z.leb_le. rewrite len_app.
      pose proof (len_nonneg rest). lia. }
  rewrite to_nat_len, take_app_length, drop_app_length.
  destruct final; reflexivity.
Qed.

Lemma stored_blocks_length (fuel : nat) (d : bytes) :
  (5 + length d <= length (stored_blocks fuel d))%nat.
Proof.
  revert d. induction fuel as [|fuel IH]; intros d; cbn [stored_blocks].
  - rewrite stored_block_length. lia.
  - destruct (Z.leb_spec (len d) 0xFFFF) as [Hs|Hb].
    + rewrite stored_block_length. lia.
    + rewrite length_app, stored_block_length.
      specialize (IH (skipn block_max d)).
      rewrite length_drop in IH. rewrite length_take. lia.
Qed.

Lemma inflate_stored_blocks (fe : nat) :
  forall (d rest : bytes) (fd : nat),
    (length d <= fe)%nat -> (length d < fd)%nat ->
    inflate_stored fd (stored_blocks fe d ++ rest) = Some (d, rest).
Proof.
  induction fe as [|fe IH]; intros d rest fd Hfe Hfd;
    (destruct fd as [|fd]; [lia|]); cbn [stored_blocks].
  - apply (inflate_stored_block fd true). unfold len. lia.
  - destruct (Z.leb_spec (len d) 0xFFFF) as [Hs|Hb].
    + apply (inflate_stored_block fd true). exact Hs.
    + pose proof block_max_Z as Hm. unfold len in Hb.
      rewrite <- app_assoc.
      rewrite (inflate_stored_block fd false)
        by (unfold len; rewrite length_take; lia).
      rewrite IH by (rewrite length_drop; lia).
      now rewrite take_drop.
Qed.

Lemma zlib_unstore_store (d : bytes) : zlib_unstore (zlib_store d) = Some d.
Proof.
  unfold zlib_store.
  change ([x78; x01] ++ ?b) with (x78 :: x01 :: b).
  cbn [zlib_unstore].
  replace (bool_decide (x78 = x78)
           && ((Z_of_byte x78 * 256 + Z_of_byte x01) mod 31 =? 0)
           && negb (Z.testbit (Z_of_byte x01) 5)) with true
    by (vm_compute; reflexivity).
  rewrite inflate_stored_blocks.
  - rewrite decide_True; [reflexivity|].
    apply unpack_I_be32, adler32_bound.
  - lia.
  - rewrite length_app. pose proof (stored_blocks_length (length d) d). lia.
Qed.

(** * The round trip *)

Lemma read_pixels_green (n : nat) (rest : bytes) :
  read_pixels n
    (concat (repeat [byte_of_Z 76; byte_of_Z 175; byte_of_Z 80] n) ++ rest)
  = Some (repeat (76, 175, 80) n, rest).
Proof.
  induction n as [|n IH]; [reflexivity|].
  cbn [repeat concat app read_pixels]. rewrite IH. reflexivity.
Qed.

Lemma read_rows_green (height width : nat) :
  read_rows height width (concat (repeat (green_row width) height))
  = Some (repeat (repeat (76, 175, 80) width) height).
Proof.
  induction height as [|height IH]; [reflexivity|].
  cbn [repeat concat]. unfold green_row at 1.
  rewrite <- app_comm_cons. cbn [read_rows].
  rewrite decide_True by reflexivity.
  rewrite read_pixels_green, IH. reflexivity.
Qed.

Lemma raw_data_green_rows (size : Z) :
  raw_data size = concat (green_rows (Z.to_nat size)).
Proof. apply raw_data_eq. Qed.

Lemma png_data_inv (compress : bytes -> bytes) (size : Z) (png : bytes) :
  png_data compress size = Ok png ->
  0 <= size <= 4294967295
  /\ len (compressed compress size) <= 4294967295
  /\ png = png_layout compress size
             (be32 size ++ be32 size ++ [x08; x02; x00; x00; x00]).
Proof.
  intros Hpng.
  destruct (Z_le_gt_dec 0 size) as [H0|H0];
    [destruct (Z_le_gt_dec size 4294967295) as [H1|H1]|].
  - destruct (Z_le_gt_dec (len (compressed compress size)) 4294967295)
      as [H2|H2].
    + destruct (png_data_ok compress size (conj H0 H1) H2)
        as (ihdr & Hd & _ & E).
      rewrite ihdr_data_ok in Hd by lia. injection Hd as <-.
      rewrite E in Hpng. injection Hpng as <-. auto.
    + destruct (ihdr_chunk_ok size (conj H0 H1)) as (ihdr & _ & _ & E).
      unfold png_data in Hpng. rewrite E, rbind_Ok in Hpng.
      rewrite idat_chunk_err, rbind_Err in Hpng by lia. discriminate.
  - rewrite png_data_err in Hpng by lia. discriminate.
  - rewrite png_data_err in Hpng by lia. discriminate.
Qed.

Lemma idat_payload_layout (compress : bytes -> bytes) (size : Z)
    (ihdr : bytes) :
  idat_payload
    [ Chunk 13 IHDR ihdr (crc32 (IHDR ++ ihdr));
      Chunk (len (compressed compress size)) IDAT (compressed compress size)
            (crc32 (IDAT ++ compressed compress size));
      Chunk 0 IEND [] (crc32 (IEND ++ [])) ]
  = compressed compress size.
Proof.
  unfold idat_payload. cbn [filter list_filter chunk_type].
  rewrite decide_False by discriminate.
  rewrite decide_True by reflexivity.
  rewrite decide_False by discriminate.
  cbn [filter list_filter map concat chunk_payload].
  now rewrite app_nil_r.
Qed.

Section RoundTrip.

Variable compress : bytes -> bytes.
Variable decompress : bytes -> option bytes.

(** The zlib inverse undoes the compressor. *)
Hypothesis decompress_compress : forall d, decompress (compress d) = Some d.

Lemma decode_png_layout_cases (size : Z) :
  0 <= size <= 4294967295 ->
  len (compressed compress size) <= 4294967295 ->
  decode_png decompress
    (png_layout compress size
       (be32 size ++ be32 size ++ [x08; x02; x00; x00; x00]))
  = if (0 <? size) && (size <=? 2147483647)
    then Some (size, size, uniform_green (Z.to_nat size))
    else None.
Proof.
  intros Hs Hl. unfold decode_png.
  rewrite read_png_layout by (try reflexivity; exact Hl).
  cbn [chunk_type chunk_payload].
  rewrite bool_decide_eq_true_2 by reflexivity.
  replace (forallb crc_valid _) with true.
  2:{ symmetry. cbn [forallb]. unfold crc_valid.
      cbn [chunk_type chunk_payload chunk_crc].
      now rewrite !Z.eqb_refl. }
  rewrite bool_decide_eq_true_2 by reflexivity.
  rewrite bool_decide_eq_true_2 by reflexivity.
  rewrite bool_decide_eq_true_2.
  2:{ change 8%nat with (4 + 4)%nat.
      rewrite <- drop_drop, !drop_app_length' by reflexivity. reflexivity. }
  cbn [andb].
  rewrite unpack_I_take_be32 by exact Hs.
  rewrite drop_app_length' by reflexivity.
  rewrite unpack_I_take_be32 by exact Hs.
  replace (idat_payload _) with (compressed compress size).
  2:{ unfold idat_payload. cbn [filter list_filter chunk_type].
      rewrite decide_True by reflexivity.
      rewrite decide_False by discriminate.
      cbn [filter list_filter map concat chunk_payload].
      now rewrite app_nil_r. }
  unfold compressed. rewrite decompress_compress, raw_data_green_rows.
  destruct (0 <? size); [|reflexivity].
  destruct (size <=? 2147483647); [|reflexivity].
  cbn [andb]. unfold green_rows. rewrite read_rows_green. reflexivity.
Qed.

Lemma decode_png_layout (size : Z) :
  0 < size <= 2147483647 ->
  len (compressed compress size) <= 4294967295 ->
  decode_png decompress
    (png_layout compress size
       (be32 size ++ be32 size ++ [x08; x02; x00; x00; x00]))
  = Some (size, size, uniform_green (Z.to_nat size)).
Proof.
  intros Hs Hl. rewrite decode_png_layout_cases by (try lia; exact Hl).
  replace ((0 <? size) && (size <=? 2147483647)) with true; [reflexivity|].
  symmetry. rewrite andb_true_iff, Z.ltb_lt, Z.leb_le. lia.
Qed.

(** C1 (amended).  For every size N from 1 to 4294967295 whose
    compressed buffer is at most 4294967295 bytes long, and every path
    that can be opened for writing, [create_icon] returns and the IDAT
    payload of the file it has written is the compressed raw buffer; the
    zlib inverse takes it back to exactly N rows, each a filter byte 0
    followed by N pixel triples (76, 175, 80), which read as the uniform
    green N by N image; and for N up to 2147483647, the largest dimension
    of the format, decoding the written PNG yields width N, height N and
    that image. *)
Theorem create_icon_round_trip (size : Z) (filename : string) (w : world) :
  0 < size <= 4294967295 ->
  len (compressed compress size) <= 4294967295 ->
  filename ∉ unwritable w ->
  round_trips compress decompress size filename w.
Proof.
  intros Hs Hl Hw.
  destruct (png_data_ok compress size ltac:(lia) Hl)
    as (ihdr & Hd & Hlen & Hpng).
  destruct (png_data_inv compress size _ Hpng) as (_ & _ & E).
  unfold round_trips. cbv zeta.
  eexists. exists (png_layout compress size ihdr). eexists.
  split; [apply create_icon_writes; eassumption|].
  split; [apply lookup_insert_eq|].
  split; [apply read_png_layout; assumption|].
  rewrite idat_payload_layout. unfold compressed.
  rewrite decompress_compress, raw_data_green_rows.
  split; [reflexivity|]. split; [reflexivity|].
  split; [apply repeat_length|].
  split; [apply read_rows_green|].
  intros Hmax. rewrite E. apply decode_png_layout; [lia | exact Hl].
Qed.

End RoundTrip.

Lemma create_icon_round_trip_witness :
  (forall d, zlib_unstore (zlib_store d) = Some d)
  /\ 0 < 2 <= 4294967295
  /\ len (compressed zlib_store 2) <= 4294967295
  /\ ("icon2.png"%string ∉ unwritable empty_world)
  /\ round_trips zlib_store zlib_unstore 2 "icon2.png" empty_world.
Proof.
  assert (Hl : len (compressed zlib_store 2) <= 4294967295)
    by (vm_compute; discriminate).
  assert (Hw : "icon2.png"%string ∉ unwritable empty_world)
    by apply not_elem_of_empty.
  split; [exact zlib_unstore_store|]. split; [lia|].
  split; [exact Hl|]. split; [exact Hw|].
  apply (create_icon_round_trip zlib_store zlib_unstore zlib_unstore_store
           2 "icon2.png" empty_world); [lia | exact Hl | exact Hw].
Defined.

(** At size 2^32 there is no round trip: whatever the compressor, its
    inverse, the path and the world, the call raises [struct.error]
    before any buffer is built, and writes no file. *)
Lemma round_trip_fails_at_2_32 :
  0 < 4294967296
  /\ (forall compress filename w,
        create_icon compress 4294967296 filename w = (Err StructError, w))
  /\ (forall compress decompress filename w,
        ~ round_trips compress decompress 4294967296 filename w).
Proof.
  split; [lia|].
  assert (E : forall compress filename w,
             create_icon compress 4294967296 filename w
             = (Err StructError, w)).
  { intros. rewrite create_icon_unfold, png_data_err by lia. reflexivity. }
  split; [exact E|].
  intros compress decompress filename w. unfold round_trips. cbv zeta.
  intros (w' & png & chunks & H & _). rewrite E in H. discriminate H.
Qed.

(** * Test vectors *)

(** The CRC fields that the constant [green_pixel] of the script carries
    for its IHDR and IEND chunks are the ones [crc32] computes. *)
Example crc32_of_green_pixel_chunks :
  be32 (crc32 (IHDR ++ [x00; x00; x00; x01; x00; x00; x00; x01;
                        x08; x02; x00; x00; x00]))
  = [x90; x77; x53; xde]
  /\ be32 (crc32 IEND) = [xae; x42; x60; x82]
  /\ (map chunk_type <$> read_png green_pixel) = Some [IHDR; IDAT; IEND]
  /\ (map crc_valid <$> read_png green_pixel) = Some [true; false; true].
Proof.
  split; [|split; [|split]]; vm_compute; reflexivity.
Qed.

(** The header chunk of the 16 by 16 icon. *)
Example ihdr_chunk_16 :
  ihdr_chunk 16
  = Ok ([x00; x00; x00; x0d] ++ IHDR
        ++ [x00; x00; x00; x10; x00; x00; x00; x10; x08; x02; x00; x00; x00]
        ++ [x90; x91; x68; x36]).
Proof. vm_compute. reflexivity. Qed.

(** The whole stream for size 1, with the storing compressor. *)
Example png_data_1_stored :
  png_data zlib_store 1
  = Ok (header
        ++ [x00; x00; x00; x0d] ++ IHDR
        ++ [x00; x00; x00; x01; x00; x00; x00; x01; x08; x02; x00; x00; x00]
        ++ [x90; x77; x53; xde]
        ++ [x00; x00; x00; x0f] ++ IDAT
        ++ [x78; x01; x01; x04; x00; xfb; xff; x00; x4c; xaf; x50;
            x02; x96; x01; x4c]
        ++ be32 (crc32 (IDAT ++ zlib_store [x00; x4c; xaf; x50]))
        ++ [x00; x00; x00; x00] ++ IEND ++ [xae; x42; x60; x82]).
Proof. vm_compute. reflexivity. Qed.

Example decode_png_2_stored :
  rbind (png_data zlib_store 2) (fun png => Ok (decode_png zlib_unstore png))
  = Ok (Some (2, 2, [[(76, 175, 80); (76, 175, 80)];
                     [(76, 175, 80); (76, 175, 80)]])).
Proof. vm_compute. reflexivity. Qed.

(** * One call: outcomes and composition *)

Section OneCall.

Variable compress : bytes -> bytes.

Lemma fits_png_data (size : Z) :
  fits compress size <-> exists png, png_data compress size = Ok png.
Proof. symmetry. apply png_data_succeeds_iff. Qed.

(** X1.  A call returns only for a size between 0 and 4294967295 whose
    compressed buffer is at most 4294967295 bytes long, and only if the
    path could be opened for writing. *)
Theorem create_icon_returns_only_if (size : Z) (filename : string)
    (w : world) :
  fst (create_icon compress size filename w) = Ok tt ->
  (0 <= size <= 4294967295
   /\ len (compressed compress size) <= 4294967295)
  /\ filename ∉ unwritable w.
Proof.
  rewrite create_icon_unfold.
  destruct (png_data compress size) as [data|e] eqn:E; [|discriminate].
  destruct (decide (filename ∈ unwritable w)); [discriminate|].
  intros _. split; [|assumption].
  apply png_data_succeeds_iff. eauto.
Qed.

(** X2.  A call that raises has printed nothing.  If the error is
    [struct.error], then the size or the length of the compressed
    buffer does not fit its 32-bit field and nothing at all has happened:
    every [struct.pack] comes before [open].  If it is [OSError], both
    fit: the stream was assembled in full before the file was touched. *)
Theorem create_icon_failure (size : Z) (filename : string)
    (w w' : world) (e : exn) :
  create_icon compress size filename w = (Err e, w') ->
  stdout w' = stdout w
  /\ (e = StructError -> w' = w /\ ~ fits compress size)
  /\ (e = OSError -> fits compress size).
Proof.
  rewrite create_icon_unfold.
  destruct (png_data compress size) as [data|e'] eqn:E.
  - destruct (decide (filename ∈ unwritable w)) as [Hin|Hout];
      [|discriminate].
    intros [= <- <-]. split; [reflexivity|].
    split; [discriminate|]. intros _. apply fits_png_data. eauto.
  - intros [= <- <-]. split; [reflexivity|].
    pose proof (png_data_fails_with compress size e' E) as ->.
    split; [|discriminate]. intros _. split; [reflexivity|].
    intros Hf. apply fits_png_data in Hf as [png Hpng]. congruence.
Qed.

(** X3.  A call that returns has left the assembled stream in its file
    and has printed exactly one line, [Created <filename>]. *)
Theorem create_icon_writes_and_prints (size : Z) (filename : string) (w w' : world) :
  create_icon compress size filename w = (Ok tt, w') ->
  (exists data, png_data compress size = Ok data
                /\ files w' !! filename = Some data)
  /\ stdout w' = stdout w ++ [created_line filename].
Proof.
  rewrite create_icon_unfold.
  destruct (png_data compress size) as [data|e]; [|discriminate].
  destruct (decide (filename ∈ unwritable w)); [discriminate|].
  intros [= <-]. cbn [files unwritable stdout].
  split; [exists data; split; [reflexivity | apply lookup_insert_eq]|].
  reflexivity.
Qed.

(** X4.  The last write wins: after two calls on the same path the
    files are those a single call with the second size leaves, whatever
    the first call wrote; both lines are printed. *)
Theorem create_icon_last_write_wins (size1 size2 : Z) (filename : string)
    (w w1 w2 : world) :
  create_icon compress size1 filename w = (Ok tt, w1) ->
  create_icon compress size2 filename w1 = (Ok tt, w2) ->
  exists w2',
    create_icon compress size2 filename w = (Ok tt, w2')
    /\ files w2 = files w2'
    /\ stdout w2
       = stdout w ++ [created_line filename; created_line filename].
Proof.
  rewrite !create_icon_unfold.
  destruct (png_data compress size1) as [d1|e1]; [|discriminate].
  destruct (png_data compress size2) as [d2|e2]; [|discriminate].
  destruct (decide (filename ∈ unwritable w)) as [|Hw]; [discriminate|].
  intros [= <-]. cbn [unwritable].
  destruct (decide (filename ∈ unwritable w)); [contradiction|].
  intros [= <-]. eexists. split; [reflexivity|].
  cbn [files stdout]. split.
  - apply insert_insert_eq.
  - now rewrite <- app_assoc.
Qed.

End OneCall.

Lemma create_icon_returns_only_if_witness :
  fst (create_icon zlib_store 2 "a.png" locked_world) = Ok tt
  /\ (0 <= 2 <= 4294967295
      /\ len (compressed zlib_store 2) <= 4294967295)
  /\ ("a.png"%string ∉ unwritable locked_world).
Proof.
  assert (H : fst (create_icon zlib_store 2 "a.png" locked_world) = Ok tt)
    by (vm_compute; reflexivity).
  split; [exact H|].
  exact (create_icon_returns_only_if zlib_store 2 "a.png" locked_world H).
Defined.

Lemma create_icon_failure_witness :
  create_icon zlib_store 4294967296 "icon32.png" locked_world
  = (Err StructError, locked_world)
  /\ stdout locked_world = stdout locked_world
  /\ ~ fits zlib_store 4294967296.
Proof.
  assert (H : create_icon zlib_store 4294967296 "icon32.png" locked_world
              = (Err StructError, locked_world)).
  { rewrite create_icon_unfold, png_data_err by lia. reflexivity. }
  split; [exact H|].
  destruct (create_icon_failure zlib_store 4294967296 "icon32.png"
              locked_world locked_world StructError H) as (Hout & Hs & _).
  split; [exact Hout|]. exact (proj2 (Hs eq_refl)).
Defined.

Lemma create_icon_writes_and_prints_witness :
  (exists data, png_data zlib_store 2 = Ok data
     /\ files (snd (create_icon zlib_store 2 "a.png" locked_world))
        !! "a.png"%string = Some data)
  /\ stdout (snd (create_icon zlib_store 2 "a.png" locked_world))
     = stdout locked_world ++ [created_line "a.png"].
Proof.
  apply (create_icon_writes_and_prints zlib_store 2 "a.png" locked_world).
  vm_compute. reflexivity.
Defined.

Lemma create_icon_last_write_wins_witness :
  exists w2',
    create_icon zlib_store 2 "a.png" empty_world = (Ok tt, w2')
    /\ files (snd (create_icon zlib_store 2 "a.png"
                     (snd (create_icon zlib_store 1 "a.png" empty_world))))
       = files w2'
    /\ stdout (snd (create_icon zlib_store 2 "a.png"
                      (snd (create_icon zlib_store 1 "a.png" empty_world))))
       = stdout empty_world ++ [created_line "a.png"; created_line "a.png"].
Proof.
  apply (create_icon_last_write_wins zlib_store 1 2 "a.png" empty_world
           (snd (create_icon zlib_store 1 "a.png" empty_world)));
    vm_compute; reflexivity.
Defined.

(** * The written file, offset by offset *)

Lemma be32_13 : be32 13 = [x00; x00; x00; x0d].
Proof. vm_compute. reflexivity. Qed.

Lemma serialized_IEND :
  serialized IEND []
  = [x00; x00; x00; x00; x49; x45; x4e; x44; xae; x42; x60; x82].
Proof. vm_compute. reflexivity. Qed.

Lemma png_layout_explicit (compress : bytes -> bytes) (size : Z) :
  png_layout compress size
    (be32 size ++ be32 size ++ [x08; x02; x00; x00; x00])
  = header ++ [x00; x00; x00; x0d] ++ IHDR
    ++ be32 size ++ be32 size ++ [x08; x02; x00; x00; x00]
    ++ be32 (crc32 (IHDR ++ be32 size ++ be32 size
                         ++ [x08; x02; x00; x00; x00]))
    ++ be32 (len (compressed compress size)) ++ IDAT
    ++ compressed compress size
    ++ be32 (crc32 (IDAT ++ compressed compress size))
    ++ [x00; x00; x00; x00; x49; x45; x4e; x44; xae; x42; x60; x82].
Proof.
  unfold png_layout. rewrite serialized_IEND.
  unfold serialized. rewrite ihdr_len, be32_13.
  rewrite <- !app_assoc. reflexivity.
Qed.

Section Offsets.

Variable compress : bytes -> bytes.

(** X6.  When nothing raises, the stream has a fixed frame around the
    compressed buffer: 57 bytes more than that buffer; bytes 0..15 are
    the signature, the length 13 and the type IHDR; width and height
    read back as the size at offsets 16 and 20; bytes 24..28 are
    8, 2, 0, 0, 0; the length of the compressed buffer is at offset 33,
    the type IDAT at 37, the buffer itself at 41; and the last twelve
    bytes are always 00 00 00 00 49 45 4E 44 AE 42 60 82. *)
Theorem png_file_offsets (size : Z) :
  fits compress size ->
  exists png,
    png_data compress size = Ok png
    /\ len png = 57 + len (compressed compress size)
    /\ firstn 16 png = header ++ [x00; x00; x00; x0d] ++ IHDR
    /\ unpack_I (firstn 4 (skipn 16 png)) = Some size
    /\ unpack_I (firstn 4 (skipn 20 png)) = Some size
    /\ firstn 5 (skipn 24 png) = [x08; x02; x00; x00; x00]
    /\ unpack_I (firstn 4 (skipn 33 png))
       = Some (len (compressed compress size))
    /\ firstn 4 (skipn 37 png) = IDAT
    /\ firstn (length (compressed compress size)) (skipn 41 png)
       = compressed compress size
    /\ skipn (length (compressed compress size) + 4) (skipn 41 png)
       = [x00; x00; x00; x00; x49; x45; x4e; x44; xae; x42; x60; x82].
Proof.
  intros [Hs Hl].
  destruct (png_data_ok compress size Hs Hl) as (ihdr & _ & _ & Hpng).
  destruct (png_data_inv compress size _ Hpng) as (_ & _ & E).
  pose proof (len_nonneg (compressed compress size)) as Hc.
  exists (png_layout compress size ihdr). split; [exact Hpng|].
  rewrite E, png_layout_explicit.
  set (c := compressed compress size) in *.
  set (crc1 := be32 (crc32 (IHDR ++ _))).
  set (crc2 := be32 (crc32 (IDAT ++ c))).
  split.
  { rewrite !len_app. change (len header) with 8. change (len IHDR) with 4.
    change (len IDAT) with 4. change (len (be32 size)) with 4.
    change (len crc1) with 4. change (len crc2) with 4.
    change (len (be32 (len c))) with 4.
    change (len [x00; x00; x00; x0d]) with 4.
    change (len [x08; x02; x00; x00; x00]) with 5.
    change (len [x00; x00; x00; x00; x49; x45; x4e; x44; xae; x42; x60; x82])
      with 12.
    lia. }
  split; [reflexivity|].
  split; [apply (unpack_I_take_be32 size), Hs|].
  split; [apply (unpack_I_take_be32 size), Hs|].
  split; [reflexivity|].
  split; [apply (unpack_I_take_be32 (len c)); lia|].
  split; [reflexivity|].
  change (skipn 41 (header ++ _)) with (c ++ crc2
    ++ [x00; x00; x00; x00; x49; x45; x4e; x44; xae; x42; x60; x82]).
  split; [apply take_app_length|].
  rewrite <- drop_drop, drop_app_length. reflexivity.
Qed.

(** X7.  The size can be read off the file, so no two sizes give the
    same file: a stream assembled for one size is never the stream
    assembled for another. *)
Theorem png_data_injective (size1 size2 : Z) (png : bytes) :
  size1 <> size2 ->
  png_data compress size1 = Ok png ->
  png_data compress size2 <> Ok png.
Proof.
  intros Hne H1 H2.
  destruct (png_data_inv compress size1 _ H1) as (Hs1 & _ & E1).
  destruct (png_data_inv compress size2 _ H2) as (Hs2 & _ & E2).
  assert (R1 : unpack_I (firstn 4 (skipn 16 png)) = Some size1).
  { rewrite E1, png_layout_explicit. apply (unpack_I_take_be32 size1), Hs1. }
  assert (R2 : unpack_I (firstn 4 (skipn 16 png)) = Some size2).
  { rewrite E2, png_layout_explicit. apply (unpack_I_take_be32 size2), Hs2. }
  congruence.
Qed.

End Offsets.

Lemma png_file_offsets_witness :
  fits zlib_store 2
  /\ exists png,
       png_data zlib_store 2 = Ok png
       /\ len png = 57 + len (compressed zlib_store 2).
Proof.
  assert (Hf : fits zlib_store 2).
  { split; [lia|]. vm_compute. discriminate. }
  split; [exact Hf|].
  destruct (png_file_offsets zlib_store 2 Hf) as (png & H1 & H2 & _).
  exists png. split; assumption.
Defined.

Lemma png_data_injective_witness :
  1 <> 2
  /\ png_data zlib_store 1
     = Ok (png_layout zlib_store 1
             (be32 1 ++ be32 1 ++ [x08; x02; x00; x00; x00]))
  /\ png_data zlib_store 2
     <> Ok (png_layout zlib_store 1
              (be32 1 ++ be32 1 ++ [x08; x02; x00; x00; x00])).
Proof.
  assert (H1 : png_data zlib_store 1
               = Ok (png_layout zlib_store 1
                       (be32 1 ++ be32 1 ++ [x08; x02; x00; x00; x00])))
    by (vm_compute; reflexivity).
  split; [lia|]. split; [exact H1|].
  apply (png_data_injective zlib_store 1 2 _ ltac:(lia) H1).
Defined.

(** * The driver: what a run leaves behind *)

Section Runs.

Variable compress : bytes -> bytes.

Lemma elem_of_fmap_take {A B} (f : A -> B) (n : nat) (l : list A) (x : B) :
  x ∈ f <$> take n l -> x ∈ f <$> l.
Proof.
  intros (y & -> & Hy)%list_elem_of_fmap.
  apply list_elem_of_fmap_2. revert Hy. apply subseteq_take.
Qed.

Lemma create_icon_returns_inv (size : Z) (filename : string) (w w1 : world) :
  create_icon compress size filename w = (Ok tt, w1) ->
  exists data,
    png_data compress size = Ok data
    /\ (filename ∉ unwritable w)
    /\ w1 = World (<[filename := data]> (files w)) (unwritable w)
                  (stdout w ++ [created_line filename]).
Proof.
  rewrite create_icon_unfold.
  destruct (png_data compress size) as [data|e]; [|discriminate].
  destruct (decide (filename ∈ unwritable w)); [discriminate|].
  intros [= <-]. eauto.
Qed.

Lemma run_calls_outcome (calls : list (Z * string)) :
  NoDup (snd <$> calls) ->
  forall w, exists n,
    (n <= length calls)%nat
    /\ (fst (run_calls compress calls w) = Ok tt <-> n = length calls)
    /\ stdout (snd (run_calls compress calls w))
       = stdout w ++ ((fun c => created_line (snd c)) <$> take n calls)
    /\ unwritable (snd (run_calls compress calls w)) = unwritable w
    /\ Forall (fun c => exists data,
                 png_data compress (fst c) = Ok data
                 /\ files (snd (run_calls compress calls w)) !! snd c
                    = Some data)
              (take n calls)
    /\ (forall f, f ∉ snd <$> take n calls ->
          files (snd (run_calls compress calls w)) !! f = files w !! f).
Proof.
  induction calls as [|[size filename] calls IH]; intros Hnd w.
  - exists 0%nat. cbn. rewrite app_nil_r.
    repeat split; auto.
  - rewrite fmap_cons in Hnd. apply NoDup_cons in Hnd as [Hfresh Hnd].
    cbn [snd] in Hfresh. cbn [run_calls].
    destruct (create_icon compress size filename w) as [[[]|e] w1] eqn:E.
    + destruct (create_icon_returns_inv _ _ _ _ E) as (data & Hd & Hw & ->).
      destruct (IH Hnd (World (<[filename := data]> (files w)) (unwritable w)
                              (stdout w ++ [created_line filename])))
        as (n & Hn & Hok & Hout & Hunw & Hfiles & Hframe).
      cbn [files unwritable stdout] in *.
      exists (S n). cbn [length take fmap list_fmap snd fst].
      split; [lia|]. split; [rewrite Hok; lia|].
      split; [rewrite Hout, <- app_assoc; reflexivity|].
      split; [exact Hunw|]. split.
      * constructor; [|exact Hfiles].
        exists data. split; [exact Hd|]. cbn [fst snd].
        rewrite Hframe; [apply lookup_insert_eq|].
        intros Hin. apply Hfresh. exact (elem_of_fmap_take _ _ _ _ Hin).
      * intros f Hf. apply not_elem_of_cons in Hf as [Hne Hf].
        rewrite Hframe by exact Hf. apply lookup_insert_ne. congruence.
    + apply create_icon_raises_unchanged in E as ->.
      exists 0%nat. cbn. rewrite app_nil_r.
      repeat split; auto; try lia; discriminate.
Qed.

Lemma icons_NoDup : NoDup (snd <$> icons).
Proof. apply (bool_decide_unpack _). vm_compute. exact I. Qed.

(** X9.  Whatever the world, a run of the driver completes some number
    n of its four calls, in order, and stops (n = 4 exactly when it
    returns normally).  It has then printed the n lines of the completed
    calls and nothing else, and the files of the completed calls hold
    their streams: what was written before a failure stays written. *)
Theorem main_completed_prefix (w : world) :
  exists n,
    (n <= 4)%nat
    /\ (fst (main compress w) = Ok tt <-> n = 4%nat)
    /\ stdout (snd (main compress w))
       = stdout w ++ ((fun c => created_line (snd c)) <$> take n icons)
    /\ Forall (fun c => exists data,
                 png_data compress (fst c) = Ok data
                 /\ files (snd (main compress w)) !! snd c = Some data)
              (take n icons).
Proof.
  destruct (run_calls_outcome icons icons_NoDup w)
    as (n & Hn & Hok & Hout & _ & Hfiles & _).
  rewrite <- main_run_calls in *.
  exists n. auto.
Qed.

End Runs.

(** * Written files decode *)

Section Decoding.

Variable compress : bytes -> bytes.
Variable decompress : bytes -> option bytes.
Hypothesis decompress_compress : forall d, decompress (compress d) = Some d.

Lemma png_data_decodes (size : Z) (png : bytes) :
  png_data compress size = Ok png ->
  decode_png decompress png
  = if (0 <? size) && (size <=? 2147483647)
    then Some (size, size, uniform_green (Z.to_nat size))
    else None.
Proof.
  intros Hpng.
  destruct (png_data_inv compress size png Hpng) as (Hs & Hl & ->).
  apply decode_png_layout_cases; assumption.
Qed.


Lemma icons_legal : Forall (fun c => 0 < fst c <= 2147483647) icons.
Proof. repeat constructor; cbn [fst]; lia. Qed.

(** X12.  End to end: when the driver returns normally, each of
    icon16.png, icon32.png, icon48.png and icon128.png holds a PNG that
    decodes to a uniform green square of 16, 32, 48 and 128 pixels. *)
Theorem main_writes_four_icons (w : world) :
  fst (main compress w) = Ok tt ->
  Forall (fun c => exists png,
            files (snd (main compress w)) !! snd c = Some png
            /\ decode_png decompress png
               = Some (fst c, fst c, uniform_green (Z.to_nat (fst c))))
         icons.
Proof.
  intros Hok.
  destruct (run_calls_outcome compress icons icons_NoDup w)
    as (n & _ & Hn & _ & _ & Hfiles & _).
  rewrite <- main_run_calls in *.
  apply Hn in Hok. subst n. rewrite firstn_all in Hfiles.
  pose proof icons_legal as Hlegal.
  rewrite Forall_forall in Hfiles, Hlegal. apply Forall_forall.
  intros [size filename] Hin.
  destruct (Hfiles _ Hin) as (data & Hd & Hf).
  pose proof (Hlegal _ Hin) as Hs. cbn [fst snd] in *.
  exists data. split; [exact Hf|].
  rewrite (png_data_decodes _ _ Hd).
  replace ((0 <? size) && (size <=? 2147483647)) with true; [reflexivity|].
  symmetry. rewrite andb_true_iff, Z.ltb_lt, Z.leb_le. lia.
Qed.

End Decoding.


Lemma main_writes_four_icons_witness :
  fst (main zlib_store empty_world) = Ok tt
  /\ Forall (fun c => exists png,
               files (snd (main zlib_store empty_world)) !! snd c = Some png
               /\ decode_png zlib_unstore png
                  = Some (fst c, fst c, uniform_green (Z.to_nat (fst c))))
            icons.
Proof.
  assert (H : fst (main zlib_store empty_world) = Ok tt)
    by (vm_compute; reflexivity).
  split; [exact H|].
  exact (main_writes_four_icons zlib_store zlib_unstore zlib_unstore_store
           empty_world H).
Defined.

(** * The constant green_pixel *)

(** X13.  The module constant [green_pixel], labelled a 1x1 green PNG,
    is not a stream [create_icon] assembles: for no size and no
    compressor does the assembly yield these bytes.  Its signature, its
    chunk boundaries and the CRCs of its IHDR (1 by 1, 8-bit RGB) and
    IEND chunks are in order, but the CRC stored with its IDAT chunk is
    not the CRC-32 of that chunk. *)
Theorem green_pixel_is_no_output :
  read_png green_pixel
  = Some [ Chunk 13 IHDR [x00; x00; x00; x01; x00; x00; x00; x01;
                          x08; x02; x00; x00; x00] 0x907753DE;
           Chunk 12 IDAT [x78; x9c; x63; xf8; x4f; xea; x30; x00;
                          x00; x02; xa1; x01] 0x45B518C9;
           Chunk 0 IEND [] 0xAE426082 ]
  /\ (map crc_valid <$> read_png green_pixel) = Some [true; false; true]
  /\ forall compress size, png_data compress size <> Ok green_pixel.
Proof.
  assert (Hr : read_png green_pixel
               = Some [ Chunk 13 IHDR [x00; x00; x00; x01; x00; x00; x00; x01;
                                       x08; x02; x00; x00; x00] 0x907753DE;
                        Chunk 12 IDAT [x78; x9c; x63; xf8; x4f; xea; x30; x00;
                                       x00; x02; xa1; x01] 0x45B518C9;
                        Chunk 0 IEND [] 0xAE426082 ])
    by (vm_compute; reflexivity).
  split; [exact Hr|]. split; [vm_compute; reflexivity|].
  intros compress size Hpng.
  destruct (png_data_inv compress size _ Hpng) as (Hs & Hl & E).
  rewrite E in Hr.
  rewrite read_png_layout in Hr by (try reflexivity; exact Hl).
  pose proof (f_equal (fun o => match o with
                               | Some [_; c; _] => Some (chunk_payload c)
                               | _ => None
                               end) Hr) as Hpayload.
  pose proof (f_equal (fun o => match o with
                               | Some [_; c; _] => Some (chunk_crc c)
                               | _ => None
                               end) Hr) as Hcrc.
  cbn [chunk_payload] in Hpayload. cbn [chunk_crc] in Hcrc.
  injection Hpayload as Hpayload.
  rewrite Hpayload in Hcrc. vm_compute in Hcrc. discriminate Hcrc.
Qed.
